(** * Outline extraction from PDF text lines: a verification of process_pdfs.py

    The development embeds the functions of [src/process_pdfs.py] and proves
    the properties its specification states about them.

    Conventions of the embedding.
    - A Python [str] is a list of Unicode code points ([N]); [len] is
      [length].  String literals of the source are written with [lit].
    - Python [int]s are [Z].  Font sizes and coordinates are doubles in
      the source; a double is a rational number, and they are embedded as
      rationals ([Q]).  In [classify_headings] and [detect_title] the
      arithmetic on them is exact, the thresholds of the classification
      lying in [R].  This idealised arithmetic serves the properties of
      which lines are filtered, of the state of the loop, of the sign of
      a score and of the shape of the outline; it does not say which of
      two scores that differ by a rounding error is the larger.
    - The second phase of [classify_headings], where rounding decides the
      level of a score that sits on a threshold, is embedded a second time
      in binary64 arithmetic (module [Double], on the kernel's primitive
      floats), with [numpy.add.reduce] as a parameter.  The thresholds and
      the levels of the specification are checked against this one.
    - What the program takes from libraries and not from its own code is a
      parameter: the Unicode tables behind [str.isalnum] and [str.lower],
      [difflib.SequenceMatcher.ratio] (class [PyLib]) and the compiled
      regular expression of the language settings (record [pattern]).
    - A [dict] used as a map is a [gmap], a [set] a [gset]; a [Counter],
      whose insertion order decides [most_common], is an association list.
    - Exceptions are values of [result]: those that the code of the file
      raises by itself, a division by zero and an index out of range.  A
      [document] is what the calls of the PDF library returned; a call of
      a library that fails after the document is open, and a failure of
      the file system in [main], are outside the model.  What
      [extract_outline] prints and which functions it calls is recorded
      in a trace of [event]s. *)

From Stdlib Require Import PrimFloat.
From Stdlib Require Import QArith Qround Qabs Reals Lra Lqa ZArith.
From Stdlib Require Import Ascii String DecimalString DecimalPos DecimalZ.
From stdpp Require Import gmap list sets sorting strings.

#[local] Set Warnings "-clear-no-such-hyp".

(** ** Python strings *)

Abbreviation str := (list N).

Module PyStr.

(** A literal of the source (ASCII) as a sequence of code points. *)
Fixpoint lit (s : string) : str :=
  match s with
  | EmptyString => []
  | String a s' => N_of_ascii a :: lit s'
  end.

(** [str.isspace] on one code point: the white space of the Unicode
    character database, as CPython's [_PyUnicode_IsWhitespace] lists it. *)
Definition isspace (c : N) : bool :=
  ((9 <=? c) && (c <=? 13) || (28 <=? c) && (c <=? 32)
   || (c =? 133) || (c =? 160) || (c =? 5760)
   || (8192 <=? c) && (c <=? 8202)
   || (c =? 8232) || (c =? 8233) || (c =? 8239) || (c =? 8287)
   || (c =? 12288))%N.

Fixpoint lstrip (s : str) : str :=
  match s with
  | [] => []
  | c :: s' => if isspace c then lstrip s' else s
  end.

Definition rstrip (s : str) : str := rev (lstrip (rev s)).

(** [s.strip()] *)
Definition strip (s : str) : str := rstrip (lstrip s).

(** [s.split()]: the maximal runs of characters that are not white space.
    [cur] is the current run, reversed. *)
Fixpoint split_from (cur : str) (s : str) : list str :=
  match s with
  | [] => match cur with [] => [] | _ => [rev cur] end
  | c :: s' =>
      if isspace c
      then match cur with
           | [] => split_from [] s'
           | _ => rev cur :: split_from [] s'
           end
      else split_from (c :: cur) s'
  end.

Definition split (s : str) : list str := split_from [] s.

(** [c in s] for a one-character string [c]. *)
Definition contains (c : N) (s : str) : bool := existsb (N.eqb c) s.

(** [sep.join(parts)] *)
Fixpoint join (sep : str) (parts : list str) : str :=
  match parts with
  | [] => []
  | [p] => p
  | p :: ps => p ++ sep ++ join sep ps
  end.

(** [str(n)] for an [int], as an f-string formats it. *)
Definition of_int (n : Z) : str := lit (NilZero.string_of_int (Z.to_int n)).

End PyStr.

(** The library functions on strings whose tables are not part of the
    program. *)
Class PyLib := {
  (** [c.isalnum()] *)
  isalnum : N → bool;
  (** [s.lower()] *)
  lower : str → str;
  (** [SequenceMatcher(None, a, b).ratio()] *)
  sequence_ratio : str → str → Q;
}.

(** A compiled regular expression, by the two methods the program calls. *)
Record pattern := {
  (** [p.match(s)] is not [None] *)
  pat_match : str → bool;
  (** [p.sub('', s)] *)
  pat_sub_empty : str → str;
}.

(** [lang_settings]: only the key [numbered_heading_regex] is read, with
    [dict.get], so that an absent key is [None]. *)
Record lang_settings := {
  numbered_heading_regex : option pattern;
}.

(** ** Numbers *)

Module PyNum.

Definition Qltb (a b : Q) : bool := negb (Qle_bool b a).

(** [round(x)] of a float: to the nearest integer, ties to the even one. *)
Definition round (x : Q) : Z :=
  let f := Qfloor x in
  match (x - inject_Z f ?= 1 # 2)%Q with
  | Lt => f
  | Gt => (f + 1)%Z
  | Eq => if Z.even f then f else (f + 1)%Z
  end.

(** [min(a, b)] and [max(a, b)] return the first argument unless the
    second is strictly smaller (larger). *)
Definition min (a b : Q) : Q := if Qltb b a then b else a.
Definition max (a b : Q) : Q := if Qltb a b then b else a.

(** [max(xs, key=key)] on a non-empty sequence [x :: xs]: the first of
    the elements with the largest key. *)
Definition max_by {A} (ltb : A → A → bool) (x : A) (xs : list A) : A :=
  foldl (λ best y, if ltb best y then y else best) x xs.

End PyNum.

(** ** Exceptions *)

Inductive exn := ZeroDivisionError | IndexError.

Inductive result (A : Type) :=
| Ok (a : A)
| Raise (e : exn).
Arguments Ok {A} a.
Arguments Raise {A} e.

Global Instance result_ret : MRet result := λ A a, Ok a.
Global Instance result_bind : MBind result := λ A B f m,
  match m with
  | Ok a => f a
  | Raise e => Raise e
  end.

(** [a / b] on floats raises [ZeroDivisionError] when [b] is zero. *)
Definition pydiv (a b : Q) : result Q :=
  if Qeq_bool b 0 then Raise ZeroDivisionError else Ok (a / b)%Q.

(** ** Data *)

(** [bbox]: the sequence (x0, y0, x1, y1); [bbox[1]] is [y0], [bbox[3]] is
    [y1]. *)
Record rect := { x0 : Q; y0 : Q; x1 : Q; y1 : Q }.

(** A text line as [extract_text_blocks] builds it. *)
Record block := {
  text : str;
  font_size : Q;
  bold : bool;
  page : Z;
  bbox : rect;
}.

(** An entry of the produced outline. *)
Record entry := {
  level : str;
  entry_text : str;
  entry_page : Z;
}.

(** An item of the embedded table of contents: (level, title, page). *)
Abbreviation toc_item := (Z * str * Z)%type.

(** The produced artifact. *)
Record artifact := {
  title : str;
  outline : list entry;
}.

(** ** The document as the parsing library presents it *)

Record span := { span_text : str; span_size : Q; span_flags : Z }.
Record line := { spans : list span; line_bbox : rect }.
(** A block of [page.get_text("dict")]; an image block has no ["lines"]. *)
Record raw_block := { lines : option (list line) }.
Record fitz_page := {
  rect_width : Q;
  rect_height : Q;
  text_dict_blocks : list raw_block;
}.
Record document := {
  pages : list fitz_page;
  get_toc : list toc_item;
}.

Definition page_count (doc : document) : Z := Z.of_nat (length (pages doc)).

(** ** format_embedded_toc *)

Definition format_embedded_toc (toc : list toc_item) : list entry :=
  map (λ '(lvl, ttl, pg),
         {| level := PyStr.lit "H" ++ PyStr.of_int lvl;
            entry_text := PyStr.strip ttl;
            entry_page := pg |}) toc.

(** ** identify_repeated_elements *)

(** The key of a line: its trimmed text and the bucket of its top edge. *)
Definition block_key (b : block) : str * Z :=
  (PyStr.strip (text b), PyNum.round (y0 (bbox b) / 10)).

(** One iteration of the loop over the blocks: the key gets an empty set
    of pages if it is new, and the page of the block is added to its set. *)
Definition record_position (text_positions : gmap (str * Z) (gset Z)) (b : block)
  : gmap (str * Z) (gset Z) :=
  let key := block_key b in
  let text_positions :=
    match text_positions !! key with
    | None => <[key := ∅]> text_positions
    | Some _ => text_positions
    end in
  alter (λ pages, pages ∪ {[page b]}) key text_positions.

Definition identify_repeated_elements (blocks : list block) (min_pages : nat)
  : gset (str * Z) :=
  let text_positions := foldl record_position ∅ blocks in
  dom (filter (λ kp, min_pages ≤ size kp.2) text_positions).

(** ** extract_text_blocks *)

(** [max(line["spans"], key=lambda s: s["size"])] *)
Definition main_span (s : span) (ss : list span) : span :=
  PyNum.max_by (λ a b, PyNum.Qltb (span_size a) (span_size b)) s ss.

(** The lines of one page, in the order of the page's blocks. *)
Definition page_text_blocks (page_num : Z) (p : fitz_page) : list block :=
  flat_map (λ rb,
    match lines rb with
    | None => []
    | Some ls =>
        flat_map (λ ln,
          match spans ln with
          | [] => []
          | s :: ss =>
              let main := main_span s ss in
              let txt := PyStr.strip (PyStr.join (PyStr.lit " ") (map span_text (s :: ss))) in
              match txt with
              | [] => []
              | _ => [ {| text := txt; font_size := span_size main;
                          bold := Z.testbit (span_flags main) 1;
                          page := page_num; bbox := line_bbox ln |} ]
              end
          end) ls
    end) (text_dict_blocks p).

(** The order of the sort key [(b['page'], b['bbox'][1])]. *)
Definition sort_key_leb (a b : block) : bool :=
  (page a <? page b)%Z
  || ((page a =? page b)%Z && Qle_bool (y0 (bbox a)) (y0 (bbox b))).

(** [list.sort] is stable: an element goes before the first of the elements
    after it whose key is not smaller than its own. *)
Fixpoint insert_sorted (b : block) (l : list block) : list block :=
  match l with
  | [] => [b]
  | c :: l' => if sort_key_leb b c then b :: l else c :: insert_sorted b l'
  end.

Definition sort_blocks (l : list block) : list block := foldr insert_sorted [] l.

Definition extract_text_blocks (doc : document) : list block :=
  sort_blocks
    (mjoin (imap (λ i p, page_text_blocks (Z.of_nat i + 1) p) (pages doc))).

(** ** normalize_text *)

Section with_lib.
Context `{PyLib}.

(** The condition of the comprehension: the character at index [i] stays if
    it is the first, differs from its predecessor, or is not alphanumeric. *)
Definition keeps (text : str) (ic : nat * N) : bool :=
  (ic.1 =? 0)%nat
  || negb (bool_decide (text !! (ic.1 - 1)%nat = Some ic.2))
  || negb (isalnum ic.2).

Definition normalize_text (text : str) : str :=
  match text with
  | [] => []
  | _ => (List.filter (keeps text) (imap pair text)).*2
  end.

(** ** detect_title *)

Record title_candidate := { tc_score : Q; tc_text : str }.

(** The score of one first-page line of at least [TITLE_MIN_CHARS]
    characters. *)
Definition title_score (page_width page_height : Q) (b : block) : result Q :=
  let score := font_size b in
  let score := if PyNum.Qltb (y0 (bbox b)) (page_height * (4 # 10)) then (score * (15 # 10))%Q else score in
  let center_pos := ((x0 (bbox b) + x1 (bbox b)) / 2)%Q in
  let center_diff := Qabs (center_pos - page_width / 2) in
  q ← pydiv center_diff (page_width / 2);
  mret (score * PyNum.max (1 # 10) (1 - q))%Q.

Definition TITLE_MIN_CHARS : nat := 10.

Definition title_step (page_width page_height : Q)
    (acc : result (list title_candidate)) (b : block) : result (list title_candidate) :=
  candidates ← acc;
  if negb (page b =? 1)%Z || (length (text b) <? TITLE_MIN_CHARS)%nat then mret candidates
  else
    score ← title_score page_width page_height b;
    mret (candidates ++ [ {| tc_score := score; tc_text := text b |} ]).

Definition detect_title (doc : document) (blocks : list block) : result str :=
  if negb (0 <? page_count doc)%Z then mret []
  else
    match pages doc with
    | [] => Raise IndexError
    | p0 :: _ =>
        candidates ← foldl (title_step (rect_width p0) (rect_height p0)) (mret []) blocks;
        match candidates with
        | [] => mret []
        | c :: cs =>
            mret (normalize_text
                    (tc_text (PyNum.max_by (λ a b, PyNum.Qltb (tc_score a) (tc_score b)) c cs)))
        end
    end.

(** ** is_similar *)

Definition SIMILARITY_THRESHOLD : Q := 85 # 100.

Definition is_similar (a b : str) : bool :=
  Qle_bool SIMILARITY_THRESHOLD (sequence_ratio (lower a) (lower b)).

(** ** cluster_font_sizes *)

(** [Counter]: the counts by key, the keys in the order of their first
    occurrence. *)
Fixpoint counter_add (k : Z) (freq : list (Z * nat)) : list (Z * nat) :=
  match freq with
  | [] => [(k, 1%nat)]
  | (k', n) :: freq' =>
      if (k =? k')%Z then (k', S n) :: freq' else (k', n) :: counter_add k freq'
  end.

Definition Counter (xs : list Z) : list (Z * nat) :=
  foldl (λ freq k, counter_add k freq) [] xs.

(** [freq.most_common(1)[0][0]]: the first key with the largest count;
    [freq] is not empty where the program evaluates it. *)
Definition most_common_key (freq : list (Z * nat)) : Z :=
  match freq with
  | [] => 0
  | kv :: rest => (PyNum.max_by (λ a b, (a.2 <? b.2)%nat) kv rest).1
  end.

Definition cluster_font_sizes (blocks : list block) : Z * Z :=
  let font_sizes := List.filter (PyNum.Qltb 0) (map font_size blocks) in
  match font_sizes with
  | [] => (0, 0)%Z
  | _ =>
      let freq := Counter (map PyNum.round font_sizes) in
      let body_size := most_common_key freq in
      let heading_sizes := List.filter (λ size, (body_size <? size)%Z) (map fst freq) in
      let primary_heading_size :=
        match heading_sizes with
        | [] => body_size
        | h :: hs => foldl Z.max h hs
        end in
      (body_size, primary_heading_size)
  end.

(** ** classify_headings *)

Definition HEADING_MIN_CHARS : nat := 3.
Definition W_FONT_SIZE : Q := 25.
Definition W_VERTICAL_GAP : Q := 40.
Definition W_IS_BOLD : Q := 15.
Definition W_TEXT_LENGTH : Q := 20.

Record candidate := { cand_block : block; score : Q }.

(** The state of the first loop. *)
Record scan := {
  scored_candidates : list candidate;
  last_y1 : Q;
  last_page : Z;
}.

Definition scan_init : scan :=
  {| scored_candidates := []; last_y1 := 0; last_page := 0 |}.

(** The condition of the first [continue]. *)
Definition basic_filtered (body_size : Z) (title : str) (b : block) : bool :=
  Qle_bool (font_size b) (inject_Z body_size)
  || bool_decide (text b = [])
  || is_similar (text b) title.

(** The score of a line that passed the filters.  Both divisors are
    non-zero where [classify_headings] gets here: it has returned before
    when [body_size] is 0 or [primary_heading_size] is not larger. *)
Definition heading_score (body_size primary_heading_size : Z)
    (last_y1 : Q) (last_page : Z) (b : block) : Q :=
  let score := 0%Q in
  let score :=
    if (body_size <? primary_heading_size)%Z
    then (score + (font_size b - inject_Z body_size)
                  / (inject_Z primary_heading_size - inject_Z body_size) * W_FONT_SIZE)%Q
    else score in
  let vertical_gap :=
    if (page b =? last_page)%Z then (y0 (bbox b) - last_y1)%Q
    else (inject_Z body_size * 2)%Q in
  let gap_factor := PyNum.min 2 (vertical_gap / inject_Z body_size) in
  let score := (score + gap_factor * W_VERTICAL_GAP)%Q in
  let score := if bold b then (score + W_IS_BOLD)%Q else score in
  let score :=
    if (4 <? length (PyStr.split (text b)))%nat || PyStr.contains 58 (text b)
    then (score + W_TEXT_LENGTH)%Q else score in
  score.

(** One iteration of the first loop, on the pair [(i, b)] of [enumerate]. *)
Definition score_step (title : str) (body_size primary_heading_size : Z)
    (repeated_elements : gset (str * Z)) (st : scan) (ib : nat * block) : scan :=
  let b := ib.2 in
  if basic_filtered body_size title b then
    {| scored_candidates := scored_candidates st;
       last_y1 := if (0 <? ib.1)%nat then y1 (bbox b) else 0;
       last_page := page b |}
  else if bool_decide (block_key b ∈ repeated_elements) then
    {| scored_candidates := scored_candidates st;
       last_y1 := y1 (bbox b);
       last_page := page b |}
  else
    {| scored_candidates :=
         scored_candidates st ++
           [ {| cand_block := b;
                score := heading_score body_size primary_heading_size
                           (last_y1 st) (last_page st) b |} ];
       last_y1 := y1 (bbox b);
       last_page := page b |}.

Definition score_loop (title : str) (body_size primary_heading_size : Z)
    (repeated_elements : gset (str * Z)) (blocks : list block) : scan :=
  foldl (score_step title body_size primary_heading_size repeated_elements)
        scan_init (imap pair blocks).

(** [numpy.mean] and [numpy.std] (the population standard deviation) of
    exact scores; [Double.np_mean] and [Double.np_std] are the two in the
    arithmetic of the machine. *)
Definition np_sum (xs : list R) : R := foldr Rplus 0%R xs.
Definition np_mean (xs : list R) : R := (np_sum xs / INR (length xs))%R.
Definition np_std (xs : list R) : R :=
  sqrt (np_mean (map (λ x, (Rabs (x - np_mean xs))²)%R xs)).

Definition h1_threshold (scores : list R) : R :=
  if (length scores <? 3)%nat then np_mean scores
  else (np_mean scores + np_std scores * (8 / 10))%R.

Definition h2_threshold (scores : list R) : R := (np_mean scores * (9 / 10))%R.

(** The level of one candidate. *)
Definition heading_level (h1 h2 : R) (score : Q) : str :=
  if Rge_dec (Q2R score) h1 then PyStr.lit "H1"
  else if Rge_dec (Q2R score) h2 then PyStr.lit "H2"
  else PyStr.lit "H3".

(** The text of one candidate: normalized, and without its numbering when
    the language has a pattern and the pattern matches. *)
Definition heading_text (lang : lang_settings) (b : block) : str :=
  let normalized_text := normalize_text (text b) in
  match numbered_heading_regex lang with
  | Some re =>
      if pat_match re normalized_text
      then PyStr.strip (pat_sub_empty re normalized_text)
      else normalized_text
  | None => normalized_text
  end.

(** One iteration of the second loop. *)
Definition outline_step (h1 h2 : R) (lang : lang_settings)
    (outline : list entry) (c : candidate) : list entry :=
  let b := cand_block c in
  let lvl := heading_level h1 h2 (score c) in
  let normalized_text := heading_text lang b in
  if (HEADING_MIN_CHARS <=? length normalized_text)%nat
  then outline ++ [ {| level := lvl; entry_text := normalized_text; entry_page := page b |} ]
  else outline.

(** The second phase, on a non-empty list of candidates. *)
Definition classify_candidates (lang : lang_settings) (cands : list candidate)
  : list entry :=
  let scores := map (λ c, Q2R (score c)) cands in
  foldl (outline_step (h1_threshold scores) (h2_threshold scores) lang) [] cands.

Definition classify_headings (blocks : list block) (title : str)
    (lang : lang_settings) : list entry :=
  let '(body_size, primary_heading_size) := cluster_font_sizes blocks in
  if (body_size =? 0)%Z || (primary_heading_size <=? body_size)%Z then []
  else
    let repeated_elements := identify_repeated_elements blocks 3 in
    let cands :=
      scored_candidates
        (score_loop title body_size primary_heading_size repeated_elements blocks) in
    match cands with
    | [] => []
    | _ => classify_candidates lang cands
    end.

(** ** extract_outline *)

Inductive message :=
| MsgOpenFailed
| MsgEmbeddedOutline
| MsgHeuristicAnalysis
| MsgNoTextBlocks.

Inductive callee :=
| ExtractTextBlocks
| DetectTitle
| GetToc
| FormatEmbeddedToc
| ClassifyHeadings.

(** What a run of [extract_outline] does besides returning. *)
Inductive event :=
| Print (m : message)
| Call (f : callee).

(** A computation that leaves a trace and returns or raises. *)
Definition traced (A : Type) : Type := list event * result A.

Global Instance traced_ret : MRet traced := λ A a, ([], Ok a).
Global Instance traced_bind : MBind traced := λ A B f m,
  match m.2 with
  | Ok a => (m.1 ++ (f a).1, (f a).2)
  | Raise e => (m.1, Raise e)
  end.

Definition print (m : message) : traced unit := ([Print m], Ok tt).

(** A call of [f] whose outcome is [r]. *)
Definition call {A} (f : callee) (r : result A) : traced A := ([Call f], r).

(** [opened] is the outcome of [fitz.open(path)]. *)
Definition extract_outline (opened : result document) (lang : lang_settings)
  : traced (option artifact) :=
  match opened with
  | Raise _ => _ ← print MsgOpenFailed; mret None
  | Ok doc =>
      blocks ← call ExtractTextBlocks (Ok (extract_text_blocks doc));
      ttl ← call DetectTitle (detect_title doc blocks);
      embedded_toc ← call GetToc (Ok (get_toc doc));
      match embedded_toc with
      | _ :: _ =>
          _ ← print MsgEmbeddedOutline;
          entries ← call FormatEmbeddedToc (Ok (format_embedded_toc embedded_toc));
          mret (Some {| title := ttl; outline := entries |})
      | [] =>
          _ ← print MsgHeuristicAnalysis;
          match blocks with
          | [] => _ ← print MsgNoTextBlocks; mret None
          | _ =>
              entries ← call ClassifyHeadings (Ok (classify_headings blocks ttl lang));
              mret (Some {| title := ttl; outline := entries |})
          end
      end
  end.

End with_lib.

(** ** The second phase of classify_headings in double precision

    Lines 135 to 159 of the source on candidates whose scores are the
    doubles that the first loop computed.  The arithmetic is that of
    IEEE 754 binary64.  Of numpy only the order in which [add.reduce]
    adds the elements of an array is left open; [np_mean] and [np_std]
    are [numpy.mean] and [numpy.std] as numpy computes them from that
    sum. *)
Abbreviation float := PrimFloat.float.

Module Double.

Class NumPy := {
  (** [numpy.add.reduce(a)] on a one-dimensional array of doubles *)
  add_reduce : list float → float;
}.

(** [float(n)]; exact below 2^53. *)
Fixpoint float_of_nat (n : nat) : float :=
  match n with
  | O => 0%float
  | S n' => (float_of_nat n' + 1)%float
  end.

(** The literals [0.8] and [0.9] of the source: the doubles nearest to
    8/10 and 9/10. *)
Definition double_0_8 : float := 0x1.999999999999ap-1%float.
Definition double_0_9 : float := 0x1.ccccccccccccdp-1%float.

Record candidate := { cand_block : block; score : float }.

Section with_numpy.
Context `{PyLib} {numpy : NumPy}.

(** [numpy.mean]: the sum divided by the number of elements. *)
Definition np_mean (a : list float) : float :=
  (add_reduce a / float_of_nat (length a))%float.

(** [numpy.std]: the square root of the mean of the squared deviations
    from the mean (no correction of the degrees of freedom). *)
Definition np_std (a : list float) : float :=
  let arrmean := np_mean a in
  let x := map (λ v, (v - arrmean)%float) a in
  let x := map (λ v, (v * v)%float) x in
  PrimFloat.sqrt (add_reduce x / float_of_nat (length a))%float.

Definition h1_threshold (scores : list float) : float :=
  if (length scores <? 3)%nat then np_mean scores
  else (np_mean scores + np_std scores * double_0_8)%float.

Definition h2_threshold (scores : list float) : float :=
  (np_mean scores * double_0_9)%float.

(** [score >= threshold] is [threshold <= score]. *)
Definition heading_level (h1 h2 : float) (score : float) : str :=
  if (h1 <=? score)%float then PyStr.lit "H1"
  else if (h2 <=? score)%float then PyStr.lit "H2"
  else PyStr.lit "H3".

Definition outline_step (h1 h2 : float) (lang : lang_settings)
    (outline : list entry) (c : candidate) : list entry :=
  let b := cand_block c in
  let lvl := heading_level h1 h2 (score c) in
  let normalized_text := heading_text lang b in
  if (HEADING_MIN_CHARS <=? length normalized_text)%nat
  then outline ++ [ {| level := lvl; entry_text := normalized_text; entry_page := page b |} ]
  else outline.

(** From [if not scored_candidates: return []] to the end of the
    function. *)
Definition classify_candidates (lang : lang_settings) (cands : list candidate)
  : list entry :=
  match cands with
  | [] => []
  | _ =>
      let scores := map score cands in
      foldl (outline_step (h1_threshold scores) (h2_threshold scores) lang) [] cands
  end.

End with_numpy.

(** The sum as numpy computes it for an array of fewer than 8 elements:
    from 0, one element after the other. *)
Definition sum_of_few (a : list float) : float := foldl PrimFloat.add 0%float a.

Definition numpy_of_few : NumPy := {| add_reduce := sum_of_few |}.

End Double.

(** ** Definitions used by the statements and proofs *)

(** The filter of [normalize_text] as a recursion that carries the
    preceding character of the input. *)
Fixpoint normalize_from `{PyLib} (prev : N) (s : str) : str :=
  match s with
  | [] => []
  | c :: s' =>
      if negb (bool_decide (prev = c)) || negb (isalnum c)
      then c :: normalize_from c s'
      else normalize_from c s'
  end.

(** The reformatting of an embedded outline that keeps each title as it
    is, as the specification words it. *)
Definition verbatim_toc (toc : list toc_item) : list entry :=
  map (λ it, {| level := PyStr.lit "H" ++ PyStr.of_int it.1.1;
                entry_text := it.1.2;
                entry_page := it.2 |}) toc.

(** The three levels of the specification. *)
Definition spec_levels : list str :=
  [PyStr.lit "H1"; PyStr.lit "H2"; PyStr.lit "H3"].

(** The condition under which [classify_headings] returns at once. *)
Definition degenerate_typography (blocks : list block) : Prop :=
  (cluster_font_sizes blocks).1 = 0%Z
  ∨ ((cluster_font_sizes blocks).2 ≤ (cluster_font_sizes blocks).1)%Z.

(** The candidates that the first phase of [classify_headings] hands to
    the second: none when it returns before the loop. *)
Definition candidates_of `{PyLib} (blocks : list block) (ttl : str) : list candidate :=
  let '(body_size, primary_heading_size) := cluster_font_sizes blocks in
  if (body_size =? 0)%Z || (primary_heading_size <=? body_size)%Z then []
  else scored_candidates
         (score_loop ttl body_size primary_heading_size
            (identify_repeated_elements blocks 3) blocks).

Definition scores_of (cands : list candidate) : list R :=
  map (λ c, Q2R (score c)) cands.

(** The entry that the second loop makes of the candidate [c] of [cands],
    when it makes one. *)
Definition entry_of `{PyLib} (lang : lang_settings) (cands : list candidate)
    (c : candidate) : entry :=
  {| level := heading_level (h1_threshold (scores_of cands))
                (h2_threshold (scores_of cands)) (score c);
     entry_text := heading_text lang (cand_block c);
     entry_page := page (cand_block c) |}.

(** The final text of a candidate has at least [HEADING_MIN_CHARS]
    characters. *)
Definition long_enough `{PyLib} (lang : lang_settings) (c : candidate) : bool :=
  (3 <=? length (heading_text lang (cand_block c)))%nat.

(** The final text of a heading as the specification words it: the text
    normalized, and then, when the language has a numbering pattern and
    the pattern matches, without the matched prefix and trimmed again. *)
Definition final_text `{PyLib} (lang : lang_settings) (raw : str) : str :=
  match numbered_heading_regex lang with
  | None => normalize_text raw
  | Some re =>
      if pat_match re (normalize_text raw)
      then PyStr.strip (pat_sub_empty re (normalize_text raw))
      else normalize_text raw
  end.

(** The thresholds and the rule of classification as the specification
    words them, in the arithmetic of the program. *)
Definition spec_mean {numpy : Double.NumPy} (xs : list float) : float :=
  (Double.add_reduce xs / Double.float_of_nat (length xs))%float.

Definition spec_population_std {numpy : Double.NumPy} (xs : list float) : float :=
  PrimFloat.sqrt
    (Double.add_reduce (map (λ x, ((x - spec_mean xs) * (x - spec_mean xs))%float) xs)
     / Double.float_of_nat (length xs))%float.

Definition spec_h1_threshold {numpy : Double.NumPy} (xs : list float) : float :=
  if lt_dec (length xs) 3 then spec_mean xs
  else (spec_mean xs + spec_population_std xs * (8 / 10))%float.

Definition spec_h2_threshold {numpy : Double.NumPy} (xs : list float) : float :=
  (spec_mean xs * (9 / 10))%float.

Inductive spec_level (t1 t2 s : float) : str → Prop :=
| spec_level_h1 :
    (t1 <=? s)%float = true → spec_level t1 t2 s (PyStr.lit "H1")
| spec_level_h2 :
    (t1 <=? s)%float = false → (t2 <=? s)%float = true →
    spec_level t1 t2 s (PyStr.lit "H2")
| spec_level_h3 :
    (t1 <=? s)%float = false → (t2 <=? s)%float = false →
    spec_level t1 t2 s (PyStr.lit "H3").

(** A line is left out of the candidates by the first or by the second
    [continue] of the loop. *)
Definition excluded `{PyLib} (body_size : Z) (ttl : str)
    (repeated_elements : gset (str * Z)) (b : block) : bool :=
  basic_filtered body_size ttl b || bool_decide (block_key b ∈ repeated_elements).

(** The candidate that the loop records for the line [b] in state [st]. *)
Definition candidate_in (body_size primary_heading_size : Z) (st : scan) (b : block)
  : candidate :=
  {| cand_block := b;
     score := heading_score body_size primary_heading_size (last_y1 st) (last_page st) b |}.

(** No line starts above the top of the page, nor above the bottom edge of
    the line before it on the same page. *)
Definition well_spaced (blocks : list block) : Prop :=
  Forall (λ b, (0 <= y0 (bbox b))%Q) blocks
  ∧ ∀ pre p b post,
      blocks = pre ++ p :: b :: post →
      page p = page b →
      (y1 (bbox p) <= y0 (bbox b))%Q.

(** The pages on which a key occurs. *)
Definition key_pages (blocks : list block) (k : str * Z) : gset Z :=
  list_to_set (map page (List.filter (λ b, bool_decide (block_key b = k)) blocks)).

(** *** The classification without the square root

    The tests [score >= h1_threshold] and [score >= h2_threshold] decided
    in the rationals: with mean [m] and variance [v] of the scores,
    [s >= m + 0.8 * sqrt v] holds exactly when [s >= m] and
    [(s - m)^2 >= 0.64 * v].  [classify_headings_exec] is
    [classify_headings] with these tests; it evaluates, and the two are
    proved equal. *)
Definition Qsum (xs : list Q) : Q := foldr Qplus 0%Q xs.

Definition Qmean (xs : list Q) : Q := (Qsum xs / inject_Z (Z.of_nat (length xs)))%Q.

Definition Qvariance (xs : list Q) : Q :=
  Qmean (map (λ x, (x - Qmean xs) * (x - Qmean xs))%Q xs).

Definition reaches_h1 (xs : list Q) (s : Q) : bool :=
  if (length xs <? 3)%nat then Qle_bool (Qmean xs) s
  else Qle_bool (Qmean xs) s
       && Qle_bool ((64 # 100) * Qvariance xs) ((s - Qmean xs) * (s - Qmean xs)).

Definition reaches_h2 (xs : list Q) (s : Q) : bool :=
  Qle_bool (Qmean xs * (9 # 10)) s.

Definition heading_level_exec (xs : list Q) (s : Q) : str :=
  if reaches_h1 xs s then PyStr.lit "H1"
  else if reaches_h2 xs s then PyStr.lit "H2"
  else PyStr.lit "H3".

Definition classify_candidates_exec `{PyLib} (lang : lang_settings)
    (cands : list candidate) : list entry :=
  map (λ c, {| level := heading_level_exec (map score cands) (score c);
               entry_text := heading_text lang (cand_block c);
               entry_page := page (cand_block c) |})
      (List.filter (long_enough lang) cands).

Definition classify_headings_exec `{PyLib} (blocks : list block) (ttl : str)
    (lang : lang_settings) : list entry :=
  classify_candidates_exec lang (candidates_of blocks ttl).

(** ** Inputs of the examples *)

(** An instance of the library functions for the examples: [isalnum] and
    [lower] as Python has them on ASCII, and the ratio that
    [SequenceMatcher] gives when one of the two strings is empty (1.0 when
    both are, else 0.0).  The examples compare with the empty title only. *)
Definition ascii_isalnum (c : N) : bool :=
  ((48 <=? c) && (c <=? 57) || (65 <=? c) && (c <=? 90)
   || (97 <=? c) && (c <=? 122))%N.

Definition ascii_lower (s : str) : str :=
  map (λ c, if ((65 <=? c) && (c <=? 90))%N then (c + 32)%N else c) s.

Definition ratio_with_empty (a b : str) : Q :=
  match a, b with
  | [], [] => 1
  | _, _ => 0
  end.

Definition example_lib : PyLib :=
  {| isalnum := ascii_isalnum; lower := ascii_lower;
     sequence_ratio := ratio_with_empty |}.

Definition no_numbering : lang_settings := {| numbered_heading_regex := None |}.

(** A document without pages whose embedded outline has one title with a
    leading blank. *)
Definition doc_padded_title : document :=
  {| pages := []; get_toc := [(1%Z, PyStr.lit " Intro", 1%Z)] |}.

(** A document without pages whose embedded outline has a level 4. *)
Definition doc_deep_toc : document :=
  {| pages := []; get_toc := [(1%Z, PyStr.lit "Part", 1%Z); (4%Z, PyStr.lit "Detail", 7%Z)] |}.

(** What [extract_outline] returns for [doc_deep_toc]. *)
Definition deep_toc_artifact : artifact :=
  {| title := [];
     outline :=
       [ {| level := PyStr.lit "H1"; entry_text := PyStr.lit "Part"; entry_page := 1 |};
         {| level := PyStr.lit "H4"; entry_text := PyStr.lit "Detail"; entry_page := 7 |} ] |}.

(** A one-page document whose two lines have the same font size. *)
Definition doc_uniform : document :=
  {| pages :=
       [ {| rect_width := 612; rect_height := 792;
            text_dict_blocks :=
              [ {| lines := Some
                     [ {| spans := [ {| span_text := PyStr.lit "A plain first line";
                                        span_size := 11; span_flags := 0 |} ];
                          line_bbox := {| x0 := 72; y0 := 80; x1 := 300; y1 := 93 |} |};
                       {| spans := [ {| span_text := PyStr.lit "and a second one";
                                        span_size := 11; span_flags := 0 |} ];
                          line_bbox := {| x0 := 72; y0 := 100; x1 := 280; y1 := 113 |} |} ] |} ] |} ];
     get_toc := [] |}.

(** Three candidates with the scores 10, 20 and 90, three with the scores
    25, 30 and 45, and three with the same score 53.33333333333333. *)
Definition line_on_page_1 (t : string) (top : Q) : block :=
  {| text := PyStr.lit t; font_size := 14; bold := false; page := 1;
     bbox := {| x0 := 72; y0 := top; x1 := 300; y1 := top + 16 |} |}.

Definition scored (a b c : float) : list Double.candidate :=
  [ {| Double.cand_block := line_on_page_1 "Alpha" 100; Double.score := a |};
    {| Double.cand_block := line_on_page_1 "Beta" 200; Double.score := b |};
    {| Double.cand_block := line_on_page_1 "Gamma" 300; Double.score := c |} ].

Definition cands_10_20_90 : list Double.candidate := scored 10 20 90.
Definition cands_25_30_45 : list Double.candidate := scored 25 30 45.
Definition cands_equal : list Double.candidate :=
  scored 0x1.aaaaaaaaaaaaap+5 0x1.aaaaaaaaaaaaap+5 0x1.aaaaaaaaaaaaap+5.

(** The pattern [^\d+(\.\d+)*\s*] of the specification's example, on
    ASCII text: [match] asks for a leading digit, [sub] removes the
    digits, the groups of a dot and digits, and the white space that
    follow. *)
Definition is_digit (c : N) : bool := ((48 <=? c) && (c <=? 57))%N.

Fixpoint skip_digits (s : str) : str :=
  match s with
  | c :: s' => if is_digit c then skip_digits s' else s
  | [] => []
  end.

Fixpoint skip_groups (fuel : nat) (s : str) : str :=
  match fuel, s with
  | S fuel', 46%N :: d :: s' =>
      if is_digit d then skip_groups fuel' (skip_digits s') else s
  | _, _ => s
  end.

Definition decimal_numbering : pattern :=
  {| pat_match := λ s, match s with c :: _ => is_digit c | [] => false end;
     pat_sub_empty := λ s,
       match s with
       | c :: _ =>
           if is_digit c
           then PyStr.lstrip (skip_groups (length s) (skip_digits s))
           else s
       | [] => []
       end |}.

Definition with_numbering : lang_settings :=
  {| numbered_heading_regex := Some decimal_numbering |}.

(** Two pages with body text and one heading each; no line of page 1 has
    10 characters, so that the title is empty. *)
Definition short_line (t : string) (size : Q) (flags : Z) (top bottom : Q) : raw_block :=
  {| lines := Some [ {| spans := [ {| span_text := PyStr.lit t; span_size := size;
                                      span_flags := flags |} ];
                        line_bbox := {| x0 := 72; y0 := top; x1 := 300; y1 := bottom |} |} ] |}.

Definition doc_two_pages : document :=
  {| pages :=
       [ {| rect_width := 612; rect_height := 792;
            text_dict_blocks :=
              [ short_line "body one" 10 0 100 112; short_line "body two" 10 0 120 132;
                short_line "Intro" 16 0 150 170 ] |};
         {| rect_width := 612; rect_height := 792;
            text_dict_blocks :=
              [ short_line "body text" 10 0 100 112; short_line "Methods" 16 2 130 150;
                short_line "more text" 10 0 160 172 ] |} ];
     get_toc := [] |}.

Definition two_pages_artifact : artifact :=
  {| title := [];
     outline :=
       [ {| level := PyStr.lit "H2"; entry_text := PyStr.lit "Intro"; entry_page := 1 |};
         {| level := PyStr.lit "H1"; entry_text := PyStr.lit "Methods"; entry_page := 2 |} ] |}.

(** A page whose first line is body text, followed at 6 points by a
    heading and by a second line of body text. *)
Definition body_line_first : block :=
  {| text := PyStr.lit "Body text, line one"; font_size := 10; bold := false; page := 1;
     bbox := {| x0 := 72; y0 := 100; x1 := 400; y1 := 112 |} |}.

Definition heading_after_body : block :=
  {| text := PyStr.lit "Heading"; font_size := 20; bold := false; page := 1;
     bbox := {| x0 := 72; y0 := 118; x1 := 200; y1 := 140 |} |}.

Definition body_line_last : block :=
  {| text := PyStr.lit "Body text, line two"; font_size := 10; bold := false; page := 1;
     bbox := {| x0 := 72; y0 := 150; x1 := 400; y1 := 162 |} |}.

Definition blocks_body_first : list block :=
  [body_line_first; heading_after_body; body_line_last].

Definition heading_after_last : block :=
  {| text := PyStr.lit "Second heading"; font_size := 20; bold := false; page := 1;
     bbox := {| x0 := 72; y0 := 170; x1 := 260; y1 := 192 |} |}.

(** Two columns: the heading of the right column starts at 121, above the
    bottom edge 132 of the line of the left column that precedes it in the
    order of (page, top edge). *)
Definition left_column_line_1 : block :=
  {| text := PyStr.lit "left column, first line"; font_size := 10; bold := false;
     page := 1; bbox := {| x0 := 72; y0 := 100; x1 := 290; y1 := 112 |} |}.

Definition left_column_line_2 : block :=
  {| text := PyStr.lit "left column, second line"; font_size := 10; bold := false;
     page := 1; bbox := {| x0 := 72; y0 := 120; x1 := 290; y1 := 132 |} |}.

Definition right_column_heading : block :=
  {| text := PyStr.lit "Results"; font_size := 12; bold := false;
     page := 1; bbox := {| x0 := 320; y0 := 121; x1 := 400; y1 := 135 |} |}.

Definition blocks_two_columns : list block :=
  [left_column_line_1; left_column_line_2; right_column_heading].

(** Three pages with the same running header at the same height, body
    text, and one heading on the third page. *)
Definition running_header (p : Z) : block :=
  {| text := PyStr.lit "Annual Report"; font_size := 14; bold := true; page := p;
     bbox := {| x0 := 72; y0 := 20; x1 := 200; y1 := 36 |} |}.

Definition body_line (p : Z) (top : Q) : block :=
  {| text := PyStr.lit "some body text"; font_size := 10; bold := false; page := p;
     bbox := {| x0 := 72; y0 := top; x1 := 500; y1 := top + 12 |} |}.

Definition methods_heading : block :=
  {| text := PyStr.lit "Methods"; font_size := 14; bold := true; page := 3;
     bbox := {| x0 := 72; y0 := 300; x1 := 160; y1 := 316 |} |}.

Definition blocks_with_header : list block :=
  [ running_header 1; body_line 1 100; body_line 1 120;
    running_header 2; body_line 2 100; body_line 2 120;
    running_header 3; body_line 3 100; methods_heading ].

(** A page of body text with four headings: one whose normalized text has
    2 characters, two numbered ones, and one with a doubled letter. *)
Definition heading_at (t : string) (top : Q) : block :=
  {| text := PyStr.lit t; font_size := 20; bold := false; page := 1;
     bbox := {| x0 := 72; y0 := top; x1 := 300; y1 := top + 22 |} |}.

Definition blocks_short_headings : list block :=
  [ body_line 1 100; heading_at "aab" 130; body_line 1 160;
    heading_at "2.1 Introduction" 190; body_line 1 220;
    heading_at "7 A" 250; body_line 1 280; body_line 1 300;
    heading_at "Summary" 330 ].

(** ** Definitions for the further properties *)

(** No alphanumeric character of [t] repeats the character before it;
    [prev] is the character before the first one. *)
Fixpoint no_repeat_from `{PyLib} (prev : N) (t : str) : bool :=
  match t with
  | [] => true
  | c :: t' =>
      (negb (bool_decide (prev = c)) || negb (isalnum c)) && no_repeat_from c t'
  end.

Definition no_repeat `{PyLib} (t : str) : bool :=
  match t with
  | [] => true
  | c :: t' => no_repeat_from c t'
  end.

(** The lines of all pages in the order in which [extract_text_blocks]
    appends them, before the sort. *)
Definition gathered_blocks (doc : document) : list block :=
  mjoin (imap (λ i p, page_text_blocks (Z.of_nat i + 1) p) (pages doc)).

(** The order of the sort keys, and the lines with the key of [x]. *)
Definition key_le (a b : block) : Prop :=
  (page a < page b)%Z ∨ (page a = page b ∧ (y0 (bbox a) <= y0 (bbox b))%Q).

Definition same_key (x b : block) : bool := sort_key_leb x b && sort_key_leb b x.

(** A text that neither begins nor ends with white space. *)
Definition trimmed (t : str) : Prop :=
  (∀ c, head t = Some c → PyStr.isspace c = false)
  ∧ (∀ c, last t = Some c → PyStr.isspace c = false).

(** The rounded sizes that [cluster_font_sizes] counts: those of the
    blocks with a positive font size, in the order of the blocks. *)
Definition rounded_sizes (blocks : list block) : list Z :=
  map PyNum.round (List.filter (PyNum.Qltb 0) (map font_size blocks)).

(** The first block of [extract_text_blocks doc_uniform]. *)
Definition doc_uniform_first_block : block :=
  {| text := PyStr.lit "A plain first line"; font_size := 11; bold := false;
     page := 1; bbox := {| x0 := 72; y0 := 80; x1 := 300; y1 := 93 |} |}.

(** What [Counter] holds: a count for each value that occurs, the values
    in the order of their first occurrence. *)
Definition counts_of (xs : list Z) (freq : list (Z * nat)) : Prop :=
  NoDup (map fst freq)
  ∧ (∀ k n, (k, n) ∈ freq → n = count_occ Z.eq_dec xs k ∧ k ∈ xs)
  ∧ (∀ k, k ∈ xs → k ∈ map fst freq)
  ∧ (∀ k1 k k2, map fst freq = (k1 ++ k :: k2) →
       ∃ pre post, xs = (pre ++ k :: post) ∧ (k ∉ pre) ∧ ∀ j, j ∈ pre → j ∈ k1).

(** The lines that [detect_title] scores: those of page 1 with at least
    [TITLE_MIN_CHARS] characters. *)
Definition title_eligible (b : block) : bool :=
  (page b =? 1)%Z && (TITLE_MIN_CHARS <=? length (text b))%nat.

(** The score of [title_score] when the division does not raise. *)
Definition title_score_value (page_width page_height : Q) (b : block) : Q :=
  let score := font_size b in
  let score :=
    if PyNum.Qltb (y0 (bbox b)) (page_height * (4 # 10))
    then (score * (15 # 10))%Q else score in
  let center_pos := ((x0 (bbox b) + x1 (bbox b)) / 2)%Q in
  let center_diff := Qabs (center_pos - page_width / 2) in
  (score * PyNum.max (1 # 10) (1 - center_diff / (page_width / 2)))%Q.

(** A page of width 0 with one long line on it, and that line as
    [extract_text_blocks] returns it. *)
Definition doc_zero_width : document :=
  {| pages :=
       [ {| rect_width := 0; rect_height := 792;
            text_dict_blocks :=
              [ {| lines := Some
                     [ {| spans := [ {| span_text := PyStr.lit "A line of some length";
                                        span_size := 11; span_flags := 0 |} ];
                          line_bbox := {| x0 := 0; y0 := 80; x1 := 0; y1 := 93 |} |} ] |} ] |} ];
     get_toc := [(1%Z, PyStr.lit "Part", 1%Z)] |}.

Definition zero_width_block : block :=
  {| text := PyStr.lit "A line of some length"; font_size := 11; bold := false;
     page := 1; bbox := {| x0 := 0; y0 := 80; x1 := 0; y1 := 93 |} |}.

(** ** main

    The loop of [main] over the files of the input directory.  What the
    function takes from its surroundings is an argument: the dictionary
    that [load_language_config] returned, the language of the command
    line, the files that [glob] found, each with its name without suffix
    and the outcome of opening it, and the JSON files that the output
    directory holds, by name without suffix.  A batch carries the files of
    the output directory, what was printed, and the exception that ended
    the run, if any.  The exceptions of a batch are those of the documents;
    creating the output directory and writing a file are taken to succeed,
    so that what is proved of a run holds of the runs in which they do. *)
Record pdf_file := { pdf_stem : string; pdf_open : result document }.

Inductive batch_message :=
| MsgLanguageNotFound
| MsgNoPdfFiles
| MsgStarting (n : nat)
| MsgProcessing (stem : string)
| MsgExtracted (stem : string)
| MsgNotExtracted (stem : string)
| MsgSeparator
| MsgAllProcessed.

Inductive batch_event :=
| Say (m : batch_message)
| InDocument (e : event).

Record batch := {
  written : gmap string artifact;
  batch_log : list batch_event;
  raised : option exn;
}.

(** One iteration of the loop; after an exception there is none. *)
Definition process_pdf `{PyLib} (settings : lang_settings) (st : batch)
    (pdf : pdf_file) : batch :=
  match raised st with
  | Some _ => st
  | None =>
      let run := extract_outline (pdf_open pdf) settings in
      let log := batch_log st ++ Say (MsgProcessing (pdf_stem pdf))
                              :: map InDocument run.1 in
      match run.2 with
      | Raise e => {| written := written st; batch_log := log; raised := Some e |}
      | Ok (Some result) =>
          {| written := <[pdf_stem pdf := result]> (written st);
             batch_log := log ++ [Say (MsgExtracted (pdf_stem pdf)); Say MsgSeparator];
             raised := None |}
      | Ok None =>
          {| written := written st;
             batch_log := log ++ [Say (MsgNotExtracted (pdf_stem pdf)); Say MsgSeparator];
             raised := None |}
      end
  end.

Definition main `{PyLib} (lang_configs : gmap string lang_settings) (lang : string)
    (pdf_files : list pdf_file) (out : gmap string artifact) : batch :=
  if bool_decide (lang_configs = ∅)
  then {| written := out; batch_log := []; raised := None |}
  else
    match lang_configs !! lang with
    | None => {| written := out; batch_log := [Say MsgLanguageNotFound]; raised := None |}
    | Some settings =>
        match pdf_files with
        | [] => {| written := out; batch_log := [Say MsgNoPdfFiles]; raised := None |}
        | _ =>
            let st :=
              foldl (process_pdf settings)
                    {| written := out;
                       batch_log := [Say (MsgStarting (length pdf_files))];
                       raised := None |}
                    pdf_files in
            match raised st with
            | Some _ => st
            | None =>
                {| written := written st;
                   batch_log := batch_log st ++ [Say MsgAllProcessed];
                   raised := None |}
            end
        end
    end.

(** A batch of three files: one that does not open, one of width 0 and
    one with an embedded outline. *)
Definition pdf_broken : pdf_file := {| pdf_stem := "broken"; pdf_open := Raise IndexError |}.
Definition pdf_zero_width : pdf_file := {| pdf_stem := "flat"; pdf_open := Ok doc_zero_width |}.
Definition pdf_deep : pdf_file := {| pdf_stem := "deep"; pdf_open := Ok doc_deep_toc |}.

Definition english_only : gmap string lang_settings := {[ "en"%string := no_numbering ]}.

(** * Properties *)

(** Linear arithmetic over the reals and over the rationals. *)
Ltac lraR := Lra.lra.
Ltac lraQ := Lqa.lra.

(** ** Strings *)

Lemma lit_inj s s' : PyStr.lit s = PyStr.lit s' → s = s'.
Proof.
  revert s'. induction s as [|a s IH]; intros [|a' s']; simpl; try discriminate; auto.
  intros Heq. injection Heq as Ha Hs.
  f_equal; [|by apply IH].
  rewrite <- (ascii_N_embedding a), <- (ascii_N_embedding a'). by rewrite Ha.
Qed.

Lemma to_int_printable z :
  Z.to_int z ≠ Decimal.Pos Decimal.Nil ∧ Z.to_int z ≠ Decimal.Neg Decimal.Nil.
Proof.
  destruct z as [|p|p]; simpl; split; try discriminate;
    intros Heq; injection Heq as Heq; by apply Unsigned.to_uint_nonnil in Heq.
Qed.

Lemma of_int_inj a b : PyStr.of_int a = PyStr.of_int b → a = b.
Proof.
  unfold PyStr.of_int. intros Heq%lit_inj.
  destruct (to_int_printable a) as [Ha1 Ha2], (to_int_printable b) as [Hb1 Hb2].
  apply to_int_inj.
  pose proof (NilZero.isi _ Ha1 Ha2) as Ia.
  pose proof (NilZero.isi _ Hb1 Hb2) as Ib.
  rewrite Heq in Ia. rewrite Ia in Ib. by injection Ib.
Qed.

(** ** normalize_text *)

Section normalize.
Context `{PyLib}.

Lemma normalize_suffix (s pre : str) (p : N) :
  (List.filter (keeps (pre ++ p :: s))
     (imap (λ i c, (length pre + 1 + i, c)%nat) s)).*2
  = normalize_from p s.
Proof.
  revert pre p. induction s as [|c s IH]; intros pre p; [done|].
  rewrite imap_cons. cbn [List.filter normalize_from].
  assert (Hk : keeps (pre ++ p :: c :: s) (length pre + 1 + 0, c)%nat
               = negb (bool_decide (p = c)) || negb (isalnum c)).
  { unfold keeps. cbn [fst snd].
    replace (length pre + 1 + 0 - 1)%nat with (length pre + 0)%nat by lia.
    rewrite lookup_app_r by lia.
    replace (length pre + 0 - length pre)%nat with 0%nat by lia. cbn [lookup list_lookup].
    replace (length pre + 1 + 0 =? 0)%nat with false
      by (symmetry; apply Nat.eqb_neq; lia).
    cbn [orb]. f_equal. f_equal.
    apply bool_decide_ext. split; congruence. }
  rewrite Hk.
  assert (Hrec : (List.filter (keeps (pre ++ p :: c :: s))
                    (imap ((λ i c0, (length pre + 1 + i, c0)%nat) ∘ S) s)).*2
                 = normalize_from c s).
  { rewrite <- (IH (pre ++ [p]) c). rewrite <- app_assoc. cbn [app].
    f_equal. f_equal. apply imap_ext. intros i x _. cbn.
    rewrite length_app. cbn. f_equal. lia. }
  destruct (negb (bool_decide (p = c)) || negb (isalnum c)); cbn [fmap list_fmap snd];
    by rewrite Hrec.
Qed.

Lemma normalize_text_cons (c : N) (s : str) :
  normalize_text (c :: s) = c :: normalize_from c s.
Proof.
  unfold normalize_text. rewrite imap_cons. cbn [List.filter].
  unfold keeps at 1. cbn [fst snd Nat.eqb orb fmap list_fmap].
  f_equal. apply (normalize_suffix s [] c).
Qed.

Lemma normalize_from_idem (s : str) (p : N) :
  normalize_from p (normalize_from p s) = normalize_from p s.
Proof.
  revert p. induction s as [|c s IH]; intros p; [done|].
  cbn [normalize_from].
  destruct (negb (bool_decide (p = c)) || negb (isalnum c)) eqn:Hk.
  - cbn [normalize_from]. rewrite Hk. by rewrite IH.
  - apply orb_false_elim in Hk as [Hpc _].
    apply negb_false_iff, bool_decide_eq_true in Hpc. subst c. apply IH.
Qed.

(** C9: normalizing a normalized text changes nothing. *)
Theorem normalize_text_idempotent (s : str) :
  normalize_text (normalize_text s) = normalize_text s.
Proof.
  destruct s as [|c s]; [done|].
  rewrite normalize_text_cons, normalize_text_cons.
  by rewrite normalize_from_idem.
Qed.

End normalize.

(** ** detect_title *)

(** C10: on a document without pages the title is the empty string for
    every list of blocks; no page is accessed (the access would raise
    [IndexError]) and no block is looked at. *)
Theorem detect_title_no_pages `{PyLib} (doc : document) (blocks : list block) :
  page_count doc = 0%Z → detect_title doc blocks = Ok [].
Proof.
  intros Hcount. unfold detect_title. by rewrite Hcount.
Qed.

Lemma detect_title_no_pages_witness :
  page_count doc_padded_title = 0%Z
  ∧ detect_title (H:=example_lib) doc_padded_title
      [ {| text := PyStr.lit "A long first line"; font_size := 12; bold := true;
           page := 1; bbox := {| x0 := 72; y0 := 80; x1 := 400; y1 := 95 |} |} ]
    = Ok [].
Proof.
  split; [reflexivity|].
  apply (detect_title_no_pages (H:=example_lib)). reflexivity.
Defined.

(** ** The embedded outline *)

Lemma format_embedded_toc_lookup (toc : list toc_item) (i : nat) lvl ttl pg :
  toc !! i = Some (lvl, ttl, pg) →
  format_embedded_toc toc !! i
  = Some {| level := PyStr.lit "H" ++ PyStr.of_int lvl;
            entry_text := PyStr.strip ttl; entry_page := pg |}.
Proof.
  revert i. induction toc as [|it toc IH]; intros [|i] Hi; try done.
  - injection Hi as ->. reflexivity.
  - by apply IH.
Qed.

(** A title that raises ends the run before the outline is asked for. *)
Lemma extract_outline_title_raises `{PyLib} doc lang e :
  detect_title doc (extract_text_blocks doc) = Raise e →
  extract_outline (Ok doc) lang = ([Call ExtractTextBlocks; Call DetectTitle], Raise e).
Proof.
  intros Ht. unfold extract_outline, call, mbind, traced_bind. cbn. by rewrite Ht.
Qed.

(** C1 (amended): with a non-empty embedded outline the produced outline
    is the reformatting of that outline, entry by entry: level "H" and the
    decimal level, the title without the white space around it, the page.
    The run calls [format_embedded_toc] and never [classify_headings],
    through which alone the heuristic stages are reached, and the result
    does not depend on the language settings. *)
Theorem embedded_outline_used_directly `{PyLib}
    (doc : document) (lang : lang_settings) (ttl : str) :
  get_toc doc ≠ [] →
  detect_title doc (extract_text_blocks doc) = Ok ttl →
  extract_outline (Ok doc) lang
  = ([Call ExtractTextBlocks; Call DetectTitle; Call GetToc;
      Print MsgEmbeddedOutline; Call FormatEmbeddedToc],
     Ok (Some {| title := ttl;
                 outline :=
                   map (λ it, {| level := PyStr.lit "H" ++ PyStr.of_int it.1.1;
                                 entry_text := PyStr.strip it.1.2;
                                 entry_page := it.2 |}) (get_toc doc) |}))
  ∧ Call ClassifyHeadings ∉ (extract_outline (Ok doc) lang).1.
Proof.
  intros Htoc Ht.
  assert (Hrun : extract_outline (Ok doc) lang
    = ([Call ExtractTextBlocks; Call DetectTitle; Call GetToc;
        Print MsgEmbeddedOutline; Call FormatEmbeddedToc],
       Ok (Some {| title := ttl; outline := format_embedded_toc (get_toc doc) |}))).
  { unfold extract_outline, call, print, mbind, traced_bind. cbn. rewrite Ht. cbn.
    destruct (get_toc doc); [done|]. reflexivity. }
  rewrite Hrun. split.
  - do 4 f_equal. unfold format_embedded_toc. apply map_ext. by intros [[lvl t] pg].
  - cbn. rewrite !elem_of_cons, elem_of_nil.
    intros [?|[?|[?|[?|[?|[]]]]]]; discriminate.
Qed.

Lemma embedded_outline_used_directly_witness :
  (extract_outline (H:=example_lib) (Ok doc_padded_title) no_numbering).2
  = Ok (Some {| title := [];
                outline := [ {| level := PyStr.lit "H1"; entry_text := PyStr.lit "Intro";
                                entry_page := 1 |} ] |}).
Proof.
  rewrite (proj1 (embedded_outline_used_directly (H:=example_lib)
                    doc_padded_title no_numbering []
                    ltac:(discriminate) ltac:(reflexivity))).
  reflexivity.
Defined.

(** C1 as stated fails: a title with a leading blank is not kept as it
    is. *)
Lemma embedded_title_not_verbatim :
  (extract_outline (H:=example_lib) (Ok doc_padded_title) no_numbering).2
  = Ok (Some {| title := [];
                outline := [ {| level := PyStr.lit "H1"; entry_text := PyStr.lit "Intro";
                                entry_page := 1 |} ] |})
  ∧ verbatim_toc (get_toc doc_padded_title)
    = [ {| level := PyStr.lit "H1"; entry_text := PyStr.lit " Intro"; entry_page := 1 |} ]
  ∧ [ {| level := PyStr.lit "H1"; entry_text := PyStr.lit "Intro"; entry_page := 1 |} ]
    ≠ verbatim_toc (get_toc doc_padded_title).
Proof.
  split; [reflexivity|]. split; [reflexivity|]. discriminate.
Qed.

(** ** The levels of the entries *)

Lemma embedded_level_in_spec (lvl : Z) :
  PyStr.lit "H" ++ PyStr.of_int lvl ∈ spec_levels ↔ (1 ≤ lvl ≤ 3)%Z.
Proof.
  unfold spec_levels. rewrite !elem_of_cons, elem_of_nil. split.
  - intros [Heq|[Heq|[Heq|[]]]]; cbn in Heq; injection Heq as Heq.
    + apply (of_int_inj lvl 1) in Heq. lia.
    + apply (of_int_inj lvl 2) in Heq. lia.
    + apply (of_int_inj lvl 3) in Heq. lia.
  - intros Hl.
    assert (lvl = 1 ∨ lvl = 2 ∨ lvl = 3)%Z as [-> | [-> | ->]] by lia; auto.
Qed.

Lemma heading_level_in_spec (h1 h2 : R) (q : Q) : heading_level h1 h2 q ∈ spec_levels.
Proof.
  unfold heading_level, spec_levels.
  destruct (Rge_dec (Q2R q) h1); [|destruct (Rge_dec (Q2R q) h2)];
    rewrite !elem_of_cons; auto.
Qed.

Section levels.
Context `{PyLib}.

Lemma outline_step_levels h1 h2 lang (acc : list entry) (c : candidate) :
  Forall (λ e, level e ∈ spec_levels) acc →
  Forall (λ e, level e ∈ spec_levels) (outline_step h1 h2 lang acc c).
Proof.
  intros Hacc. unfold outline_step.
  destruct (HEADING_MIN_CHARS <=? _)%nat; [|done].
  apply Forall_app. split; [done|].
  constructor; [|constructor]. apply heading_level_in_spec.
Qed.

Lemma classify_candidates_levels lang (cands : list candidate) :
  Forall (λ e, level e ∈ spec_levels) (classify_candidates lang cands).
Proof.
  unfold classify_candidates.
  generalize (h1_threshold (map (λ c, Q2R (score c)) cands)).
  generalize (h2_threshold (map (λ c, Q2R (score c)) cands)).
  intros h2 h1.
  assert (Hgen : ∀ acc, Forall (λ e, level e ∈ spec_levels) acc →
            Forall (λ e, level e ∈ spec_levels) (foldl (outline_step h1 h2 lang) acc cands)).
  { induction cands as [|c cands IH]; intros acc Hacc; [done|].
    cbn. apply IH. by apply outline_step_levels. }
  apply Hgen. constructor.
Qed.

Lemma classify_headings_levels blocks ttl lang :
  Forall (λ e, level e ∈ spec_levels) (classify_headings blocks ttl lang).
Proof.
  unfold classify_headings.
  destruct (cluster_font_sizes blocks) as [body primary].
  destruct (_ || _); [constructor|].
  destruct (scored_candidates _) as [|c cs] eqn:Hc; [constructor|].
  apply classify_candidates_levels.
Qed.

(** C7 (amended): every entry that the heuristic path produces has level
    "H1", "H2" or "H3".  An entry made from an item of the embedded outline
    has the level "H" followed by the decimal level of the item, which is
    one of the three exactly when the item's level is 1, 2 or 3. *)
Theorem outline_levels :
  (∀ blocks ttl lang,
     Forall (λ e, level e ∈ spec_levels) (classify_headings blocks ttl lang))
  ∧ (∀ toc : list toc_item,
       Forall2 (λ it e, level e = PyStr.lit "H" ++ PyStr.of_int it.1.1
                        ∧ (level e ∈ spec_levels ↔ (1 ≤ it.1.1 ≤ 3)%Z))
               toc (format_embedded_toc toc)).
Proof.
  split; [apply classify_headings_levels|].
  induction toc as [|[[lvl t] pg] toc IH]; cbn; constructor; [|exact IH].
  cbn. split; [done|]. apply embedded_level_in_spec.
Qed.

End levels.

Lemma outline_levels_witness :
  Forall2 (λ it e, level e = PyStr.lit "H" ++ PyStr.of_int it.1.1
                   ∧ (level e ∈ spec_levels ↔ (1 ≤ it.1.1 ≤ 3)%Z))
          (get_toc doc_deep_toc) (format_embedded_toc (get_toc doc_deep_toc)).
Proof.
  apply (proj2 (outline_levels (H:=example_lib))).
Defined.

(** C7 as stated fails: an embedded outline with an item of level 4 gives
    an entry of level "H4". *)
Lemma embedded_level_outside_spec :
  (extract_outline (H:=example_lib) (Ok doc_deep_toc) no_numbering).2
  = Ok (Some deep_toc_artifact)
  ∧ ¬ Forall (λ e, level e ∈ spec_levels) (outline deep_toc_artifact).
Proof.
  split; [reflexivity|].
  intros Hall. apply Forall_cons_1 in Hall as [_ Hall].
  apply Forall_cons_1 in Hall as [H4 _].
  cbn in H4. unfold spec_levels in H4.
  rewrite !elem_of_cons, elem_of_nil in H4.
  destruct H4 as [?|[?|[?|[]]]]; discriminate.
Qed.

(** ** The abort on degenerate typography *)

Section classify.
Context `{PyLib}.

Lemma classify_headings_candidates blocks ttl lang :
  classify_headings blocks ttl lang = classify_candidates lang (candidates_of blocks ttl).
Proof.
  unfold classify_headings, candidates_of.
  destruct (cluster_font_sizes blocks) as [body primary].
  destruct (_ || _); [done|].
  by destruct (scored_candidates _).
Qed.

Lemma degenerate_typography_test blocks :
  degenerate_typography blocks ↔
  ((cluster_font_sizes blocks).1 =? 0)%Z
  || ((cluster_font_sizes blocks).2 <=? (cluster_font_sizes blocks).1)%Z = true.
Proof.
  unfold degenerate_typography.
  rewrite orb_true_iff, Z.eqb_eq, Z.leb_le. tauto.
Qed.

(** Without an embedded outline and with text, the title of the artifact
    is what [detect_title] returned, whatever the typography. *)
Lemma heuristic_run doc lang t :
  get_toc doc = [] →
  extract_text_blocks doc ≠ [] →
  detect_title doc (extract_text_blocks doc) = Ok t →
  (extract_outline (Ok doc) lang).2
  = Ok (Some {| title := t;
                outline := classify_headings (extract_text_blocks doc) t lang |}).
Proof.
  intros Htoc Hblocks Ht.
  unfold extract_outline, call, print, mbind, traced_bind. cbn.
  rewrite Ht. cbn. rewrite Htoc. cbn.
  by destruct (extract_text_blocks doc).
Qed.

(** C2: when the body size is 0 or the primary heading size is not larger
    than the body size, [classify_headings] returns the empty outline,
    and the artifact of such a document carries the title that
    [detect_title] computed together with the empty outline. *)
Theorem degenerate_typography_empty_outline :
  (∀ blocks ttl lang,
     degenerate_typography blocks → classify_headings blocks ttl lang = [])
  ∧ (∀ doc lang t,
       degenerate_typography (extract_text_blocks doc) →
       get_toc doc = [] →
       extract_text_blocks doc ≠ [] →
       detect_title doc (extract_text_blocks doc) = Ok t →
       (extract_outline (Ok doc) lang).2 = Ok (Some {| title := t; outline := [] |})).
Proof.
  assert (Hfirst : ∀ blocks ttl lang,
            degenerate_typography blocks → classify_headings blocks ttl lang = []).
  { intros blocks ttl lang Hdeg%degenerate_typography_test.
    unfold classify_headings.
    destruct (cluster_font_sizes blocks) as [body primary]. cbn in Hdeg.
    by rewrite Hdeg. }
  split; [exact Hfirst|].
  intros doc lang t Hdeg Htoc Hblocks Ht.
  rewrite (heuristic_run doc lang t Htoc Hblocks Ht).
  by rewrite Hfirst.
Qed.

(** ** The assembly of the outline *)

Lemma outline_loop lang h1 h2 (cands : list candidate) (acc : list entry) :
  foldl (outline_step h1 h2 lang) acc cands
  = acc ++ map (λ c, {| level := heading_level h1 h2 (score c);
                        entry_text := heading_text lang (cand_block c);
                        entry_page := page (cand_block c) |})
             (List.filter (long_enough lang) cands).
Proof.
  revert acc. induction cands as [|c cands IH]; intros acc.
  - cbn. by rewrite app_nil_r.
  - cbn [foldl List.filter]. rewrite IH. unfold outline_step.
    change (HEADING_MIN_CHARS <=? length (heading_text lang (cand_block c)))%nat
      with (long_enough lang c).
    destruct (long_enough lang c); [|done].
    cbn [map]. by rewrite <- app_assoc.
Qed.

Lemma classify_candidates_entries lang (cands : list candidate) :
  classify_candidates lang cands
  = map (entry_of lang cands) (List.filter (long_enough lang) cands).
Proof.
  unfold classify_candidates. by rewrite outline_loop.
Qed.

End classify.

Lemma degenerate_typography_empty_outline_witness :
  (extract_outline (H:=example_lib) (Ok doc_uniform) no_numbering).2
  = Ok (Some {| title := PyStr.lit "A plain first line"; outline := [] |}).
Proof.
  apply (proj2 (degenerate_typography_empty_outline (H:=example_lib))).
  - right. vm_compute. discriminate.
  - reflexivity.
  - vm_compute. discriminate.
  - vm_compute. reflexivity.
Defined.

(** ** The thresholds of the classification *)

(** The text of an entry as the code computes it is the final text of the
    specification. *)
Lemma heading_text_final `{PyLib} lang b :
  heading_text lang b = final_text lang (text b).
Proof.
  unfold heading_text, final_text.
  destruct (numbered_heading_regex lang) as [re|]; [|done].
  by destruct (pat_match re _).
Qed.

Section thresholds.
Context `{PyLib} {numpy : Double.NumPy}.

Lemma np_mean_spec (xs : list float) : Double.np_mean xs = spec_mean xs.
Proof. reflexivity. Qed.

Lemma np_std_spec (xs : list float) : Double.np_std xs = spec_population_std xs.
Proof.
  unfold Double.np_std, spec_population_std.
  rewrite np_mean_spec, map_map. reflexivity.
Qed.

(** The literals of the source are 8/10 and 9/10 rounded to doubles. *)
Lemma double_literals :
  Double.double_0_8 = (8 / 10)%float ∧ Double.double_0_9 = (9 / 10)%float.
Proof. split; by vm_compute. Qed.

Lemma h1_threshold_spec (xs : list float) :
  Double.h1_threshold xs = spec_h1_threshold xs.
Proof.
  unfold Double.h1_threshold, spec_h1_threshold.
  rewrite np_std_spec, np_mean_spec, (proj1 double_literals).
  destruct (lt_dec (length xs) 3) as [Hlt|Hge].
  - by apply Nat.ltb_lt in Hlt as ->.
  - by apply Nat.ltb_nlt in Hge as ->.
Qed.

Lemma h2_threshold_spec (xs : list float) :
  Double.h2_threshold xs = spec_h2_threshold xs.
Proof.
  unfold Double.h2_threshold, spec_h2_threshold.
  by rewrite np_mean_spec, (proj2 double_literals).
Qed.

Lemma heading_level_spec (t1 t2 s : float) :
  spec_level t1 t2 s (Double.heading_level t1 t2 s).
Proof.
  unfold Double.heading_level.
  destruct (t1 <=? s)%float eqn:H1; [by constructor|].
  destruct (t2 <=? s)%float eqn:H2; by constructor.
Qed.

(** The level determines the case: the three cases exclude each other. *)
Lemma spec_level_functional (t1 t2 s : float) (l l' : str) :
  spec_level t1 t2 s l → spec_level t1 t2 s l' → l = l'.
Proof. intros [] []; congruence. Qed.

(** The second loop appends, in order, one entry for each candidate whose
    text is long enough. *)
Lemma double_outline_loop h1 h2 lang cands acc :
  foldl (Double.outline_step h1 h2 lang) acc cands
  = acc ++ map (λ c, {| level := Double.heading_level h1 h2 (Double.score c);
                        entry_text := heading_text lang (Double.cand_block c);
                        entry_page := page (Double.cand_block c) |})
             (List.filter
                (λ c, (3 <=? length (heading_text lang (Double.cand_block c)))%nat)
                cands).
Proof.
  revert acc. induction cands as [|c cands IH]; intros acc.
  - cbn. by rewrite app_nil_r.
  - cbn [foldl List.filter]. rewrite IH. unfold Double.outline_step.
    change HEADING_MIN_CHARS with 3%nat.
    destruct (3 <=? length (heading_text lang (Double.cand_block c)))%nat; [|done].
    cbn [map]. by rewrite <- app_assoc.
Qed.

(** The two embeddings of the second phase make the same entries of the
    same lines, up to the levels: the texts and the pages do not depend
    on the arithmetic of the scores. *)
Lemma classify_candidates_texts lang (cands : list candidate)
    (dcands : list Double.candidate) :
  map Double.cand_block dcands = map cand_block cands →
  map (λ e, (entry_text e, entry_page e)) (Double.classify_candidates lang dcands)
  = map (λ e, (entry_text e, entry_page e)) (classify_candidates lang cands).
Proof.
  intros Hblocks.
  set (keep := λ b : block, (3 <=? length (heading_text lang b))%nat).
  set (made := λ b : block, (heading_text lang b, page b)).
  transitivity (map made (List.filter keep (map cand_block cands))).
  - rewrite <- Hblocks. destruct dcands as [|d ds]; [done|].
    unfold Double.classify_candidates.
    rewrite double_outline_loop, app_nil_l, List.filter_map_swap, !List.map_map.
    reflexivity.
  - rewrite classify_candidates_entries, List.filter_map_swap, !List.map_map.
    reflexivity.
Qed.

(** C3: when there are candidates, the second phase makes one entry of
    each candidate whose final text has at least 3 characters, in order,
    and the entry carries the level that the rule of the specification
    gives to the candidate's score: H1 from the mean of the scores (fewer
    than 3 candidates) or the mean plus 0.8 times the population standard
    deviation, H2 from 0.9 times the mean, H3 below; all of it in the
    double-precision arithmetic of the program.  For the scores 10, 20,
    90 the H1 threshold lies between 68.47 and 68.48, the H2 threshold is
    36, and the levels are H3, H3, H1. *)
Theorem classification_by_thresholds :
  (∀ lang (cands : list Double.candidate),
     cands ≠ [] →
     Forall2 (λ c e,
                spec_level (spec_h1_threshold (map Double.score cands))
                           (spec_h2_threshold (map Double.score cands))
                           (Double.score c) (level e)
                ∧ entry_text e = final_text lang (text (Double.cand_block c))
                ∧ entry_page e = page (Double.cand_block c))
             (List.filter
                (λ c, (3 <=? length (final_text lang (text (Double.cand_block c))))%nat)
                cands)
             (Double.classify_candidates lang cands))
  ∧ ((6847 / 100 <? Double.h1_threshold (numpy:=Double.numpy_of_few)
                      (map Double.score cands_10_20_90))%float = true
     ∧ (Double.h1_threshold (numpy:=Double.numpy_of_few)
          (map Double.score cands_10_20_90) <? 6848 / 100)%float = true
     ∧ Double.h2_threshold (numpy:=Double.numpy_of_few)
         (map Double.score cands_10_20_90) = 36%float
     ∧ map (λ c, Double.heading_level
                   (Double.h1_threshold (numpy:=Double.numpy_of_few)
                      (map Double.score cands_10_20_90))
                   (Double.h2_threshold (numpy:=Double.numpy_of_few)
                      (map Double.score cands_10_20_90))
                   (Double.score c))
           cands_10_20_90
       = [PyStr.lit "H3"; PyStr.lit "H3"; PyStr.lit "H1"]).
Proof.
  split.
  - intros lang cands Hne.
    assert (Hrun : Double.classify_candidates lang cands
                   = foldl (Double.outline_step
                              (Double.h1_threshold (map Double.score cands))
                              (Double.h2_threshold (map Double.score cands)) lang)
                       [] cands)
      by (by destruct cands).
    rewrite Hrun, double_outline_loop, app_nil_l.
    apply Forall2_fmap_r, Forall_Forall2_diag, Forall_forall.
    intros c _. cbn [level entry_text entry_page].
    split; [rewrite <- h1_threshold_spec, <- h2_threshold_spec;
            apply heading_level_spec|].
    split; [apply heading_text_final|done].
  - repeat split; by vm_compute.
Qed.

End thresholds.

Lemma classification_by_thresholds_witness :
  Forall2 (λ c e,
             spec_level
               (spec_h1_threshold (numpy:=Double.numpy_of_few)
                  (map Double.score cands_25_30_45))
               (spec_h2_threshold (numpy:=Double.numpy_of_few)
                  (map Double.score cands_25_30_45))
               (Double.score c) (level e)
             ∧ entry_text e
               = final_text (H:=example_lib) no_numbering (text (Double.cand_block c))
             ∧ entry_page e = page (Double.cand_block c))
          (List.filter
             (λ c, (3 <=? length (final_text (H:=example_lib) no_numbering
                                    (text (Double.cand_block c))))%nat)
             cands_25_30_45)
          (Double.classify_candidates (H:=example_lib) (numpy:=Double.numpy_of_few)
             no_numbering cands_25_30_45).
Proof.
  apply (proj1 (classification_by_thresholds (H:=example_lib)
                  (numpy:=Double.numpy_of_few))).
  discriminate.
Defined.

(** The whole second phase on the scores 10, 20, 90. *)
Example outline_10_20_90 :
  Double.classify_candidates (H:=example_lib) (numpy:=Double.numpy_of_few)
    no_numbering cands_10_20_90
  = [ {| level := PyStr.lit "H3"; entry_text := PyStr.lit "Alpha"; entry_page := 1 |};
      {| level := PyStr.lit "H3"; entry_text := PyStr.lit "Beta"; entry_page := 1 |};
      {| level := PyStr.lit "H1"; entry_text := PyStr.lit "Gama"; entry_page := 1 |} ].
Proof. by vm_compute. Qed.

(** Rounding decides the level of a score that sits on a threshold.  The
    mean of 25, 30, 45 is computed as 33.333333333333336, and 0.9 times it
    as 30.000000000000004: the line that scores 30 is below the H2
    threshold and is H3. *)
Example outline_25_30_45 :
  Double.h2_threshold (numpy:=Double.numpy_of_few) (map Double.score cands_25_30_45)
  = 0x1.e000000000001p+4%float
  ∧ map level (Double.classify_candidates (H:=example_lib)
                 (numpy:=Double.numpy_of_few) no_numbering cands_25_30_45)
    = [PyStr.lit "H3"; PyStr.lit "H3"; PyStr.lit "H1"].
Proof. split; by vm_compute. Qed.

(** Three equal scores 53.33333333333333: their mean is computed as
    53.333333333333336, the standard deviation is not 0, and no line
    reaches the H1 threshold; all three are H2. *)
Example outline_equal_scores :
  (0 <? Double.np_std (numpy:=Double.numpy_of_few) (map Double.score cands_equal))%float
  = true
  ∧ map level (Double.classify_candidates (H:=example_lib)
                 (numpy:=Double.numpy_of_few) no_numbering cands_equal)
    = [PyStr.lit "H2"; PyStr.lit "H2"; PyStr.lit "H2"].
Proof. split; by vm_compute. Qed.

(** ** The first loop of classify_headings *)

Section scoring.
Context `{PyLib} (ttl : str) (body primary : Z) (repeated : gset (str * Z)).

Local Abbreviation step := (score_step ttl body primary repeated).
Local Abbreviation loop := (score_loop ttl body primary repeated).
Local Abbreviation excl := (excluded body ttl repeated).

Lemma step_candidates (st : scan) (i : nat) (b : block) :
  scored_candidates (step st (i, b))
  = scored_candidates st
    ++ (if excl b then [] else [candidate_in body primary st b]).
Proof.
  unfold score_step, excluded. cbn [snd fst].
  destruct (basic_filtered body ttl b); cbn; [by rewrite app_nil_r|].
  destruct (bool_decide _); cbn; [by rewrite app_nil_r|done].
Qed.

Lemma step_last_page (st : scan) (i : nat) (b : block) :
  last_page (step st (i, b)) = page b.
Proof.
  unfold score_step. cbn [snd fst].
  destruct (basic_filtered body ttl b); [done|]. by destruct (bool_decide _).
Qed.

Lemma step_last_y1 (st : scan) (i : nat) (b : block) :
  last_y1 (step st (i, b))
  = if basic_filtered body ttl b && (i =? 0)%nat then 0%Q else y1 (bbox b).
Proof.
  unfold score_step. cbn [snd fst].
  destruct (basic_filtered body ttl b); cbn.
  - by destruct i.
  - by destruct (bool_decide _).
Qed.

Lemma loop_snoc (l : list block) (b : block) :
  loop (l ++ [b]) = step (loop l) (length l, b).
Proof.
  unfold score_loop. rewrite imap_app, foldl_app. cbn.
  by rewrite Nat.add_0_r.
Qed.

Lemma loop_nil : loop [] = scan_init.
Proof. reflexivity. Qed.

(** The state after a non-empty prefix. *)
Lemma loop_last_page (l : list block) (b : block) :
  last_page (loop (l ++ [b])) = page b.
Proof. rewrite loop_snoc. apply step_last_page. Qed.

Lemma loop_last_y1 (l : list block) (b : block) :
  last_y1 (loop (l ++ [b]))
  = if basic_filtered body ttl b && bool_decide (l = []) then 0%Q else y1 (bbox b).
Proof.
  rewrite loop_snoc, step_last_y1. by destruct l.
Qed.

(** The candidates of a prefix are a prefix of the candidates. *)
Lemma loop_candidates_app (l1 l2 : list block) :
  ∃ rest, scored_candidates (loop (l1 ++ l2)) = scored_candidates (loop l1) ++ rest.
Proof.
  induction l2 as [|b l2 IH] using rev_ind.
  - exists []. by rewrite !app_nil_r.
  - destruct IH as [rest IH].
    rewrite app_assoc, loop_snoc, step_candidates, IH, <- app_assoc. eauto.
Qed.

(** Each candidate is recorded at one line that the filters let pass, with
    the score computed in the state that the lines before it left. *)
Lemma loop_candidates (blocks : list block) (c : candidate) :
  c ∈ scored_candidates (loop blocks) ↔
  ∃ pre b post, blocks = pre ++ b :: post ∧ excl b = false
                ∧ c = candidate_in body primary (loop pre) b.
Proof.
  induction blocks as [|x l IH] using rev_ind.
  - rewrite loop_nil. cbn. split; [by intros ?%elem_of_nil|].
    intros (pre & b & post & Heq & _). by destruct pre.
  - rewrite loop_snoc, step_candidates, elem_of_app, IH. split.
    + intros [(pre & b & post & -> & Hb & ->)|Hc].
      * exists pre, b, (post ++ [x]). by rewrite <- app_assoc.
      * destruct (excl x) eqn:Hx; [by apply elem_of_nil in Hc|].
        apply list_elem_of_singleton in Hc as ->.
        exists l, x, []. done.
    + intros (pre & b & post & Heq & Hb & ->).
      destruct post as [|y post _] using rev_ind.
      * apply app_inj_tail in Heq as [-> ->]. right. rewrite Hb.
        by apply list_elem_of_singleton.
      * rewrite app_comm_cons, app_assoc in Heq.
        apply app_inj_tail in Heq as [-> ->]. left. eauto 6.
Qed.

(** C4 (amended): a line that the filters exclude adds no candidate and
    moves the state to its page, and to its bottom edge unless it is the
    first line of the document and excluded by the basic filters (size,
    empty text, similarity to the title): then the bottom edge stays 0.
    So the candidate recorded for a line that follows an excluded line is
    scored with the bottom edge and the page of that line, except after
    such a first line, where it is scored with the bottom edge 0. *)
Theorem excluded_lines_advance_state :
  (∀ st i b,
     excl b = true →
     scored_candidates (step st (i, b)) = scored_candidates st
     ∧ last_page (step st (i, b)) = page b
     ∧ last_y1 (step st (i, b))
       = if basic_filtered body ttl b && (i =? 0)%nat then 0%Q else y1 (bbox b))
  ∧ (∀ pre p b post,
       excl p = true →
       excl b = false →
       pre ≠ [] ∨ basic_filtered body ttl p = false →
       ∃ rest,
         scored_candidates (loop (pre ++ p :: b :: post))
         = scored_candidates (loop pre)
           ++ {| cand_block := b;
                 score := heading_score body primary (y1 (bbox p)) (page p) b |} :: rest)
  ∧ (∀ p b post,
       basic_filtered body ttl p = true →
       excl b = false →
       ∃ rest,
         scored_candidates (loop (p :: b :: post))
         = {| cand_block := b; score := heading_score body primary 0 (page p) b |} :: rest).
Proof.
  split; [|split].
  - intros st i b Hb. rewrite step_candidates, Hb, app_nil_r.
    by rewrite step_last_page, step_last_y1.
  - intros pre p b post Hp Hb Hfirst.
    destruct (loop_candidates_app (pre ++ [p; b]) post) as [rest Hrest].
    exists rest.
    replace (pre ++ p :: b :: post) with ((pre ++ [p; b]) ++ post)
      by by rewrite <- app_assoc.
    rewrite Hrest.
    replace (pre ++ [p; b]) with ((pre ++ [p]) ++ [b]) by by rewrite <- app_assoc.
    rewrite loop_snoc, step_candidates, Hb.
    rewrite (loop_snoc pre p), step_candidates, Hp, app_nil_r, <- app_assoc.
    do 2 f_equal. unfold candidate_in.
    rewrite <- loop_snoc, loop_last_page, loop_last_y1.
    destruct Hfirst as [Hpre| ->]; [|done].
    rewrite bool_decide_eq_false_2 by done. by rewrite andb_false_r.
  - intros p b post Hp Hb.
    destruct (loop_candidates_app [p; b] post) as [rest Hrest].
    exists rest. change (p :: b :: post) with ([p; b] ++ post). rewrite Hrest.
    change [p; b] with (([] ++ [p]) ++ [b]).
    rewrite loop_snoc, step_candidates, Hb.
    rewrite (loop_snoc [] p), step_candidates.
    unfold excluded at 1. rewrite Hp. cbn [orb app].
    unfold candidate_in. rewrite <- (loop_snoc [] p), loop_last_page, loop_last_y1.
    by rewrite Hp.
Qed.

End scoring.

Lemma excluded_lines_advance_state_witness :
  ∃ rest,
    scored_candidates
      (score_loop (H:=example_lib) [] 10 20 ∅
         ([body_line_first; heading_after_body]
            ++ body_line_last :: heading_after_last :: []))
    = scored_candidates
        (score_loop (H:=example_lib) [] 10 20 ∅ [body_line_first; heading_after_body])
      ++ {| cand_block := heading_after_last;
            score := heading_score 10 20 (y1 (bbox body_line_last))
                       (page body_line_last) heading_after_last |} :: rest.
Proof.
  apply (proj1 (proj2 (excluded_lines_advance_state (H:=example_lib) [] 10 20 ∅))).
  - vm_compute. reflexivity.
  - vm_compute. reflexivity.
  - left. discriminate.
Defined.

(** C4 as stated fails at a first line of body text: the state keeps the
    bottom edge 0 and not the 112 of that line, and the heading that
    follows is scored 105, with a gap measured from 0, where the gap from
    the bottom edge of the line before it gives 49. *)
Lemma first_line_does_not_advance :
  cluster_font_sizes blocks_body_first = (10, 20)%Z
  ∧ excluded (H:=example_lib) 10 [] (identify_repeated_elements blocks_body_first 3)
      body_line_first = true
  ∧ (last_y1 (score_step (H:=example_lib) [] 10 20
                (identify_repeated_elements blocks_body_first 3)
                scan_init (0%nat, body_line_first)) == 0)%Q
  ∧ ¬ (last_y1 (score_step (H:=example_lib) [] 10 20
                  (identify_repeated_elements blocks_body_first 3)
                  scan_init (0%nat, body_line_first))
       == y1 (bbox body_line_first))%Q
  ∧ Forall2 (λ c s, cand_block c = heading_after_body ∧ (score c == s)%Q)
      (candidates_of (H:=example_lib) blocks_body_first []) [105%Q]
  ∧ (heading_score 10 20 (y1 (bbox body_line_first)) (page body_line_first)
       heading_after_body == 49)%Q.
Proof.
  split; [by vm_compute|]. split; [by vm_compute|].
  split; [by vm_compute|]. split; [by vm_compute|].
  split; [|by vm_compute].
  vm_compute. constructor; [|constructor]. split; reflexivity.
Qed.

(** ** The sign of the scores *)

Lemma Qdiv_nonneg (a b : Q) : (0 <= a → 0 < b → 0 <= a / b)%Q.
Proof.
  intros Ha Hb. unfold Qdiv. apply Qmult_le_0_compat; [done|].
  apply Qinv_le_0_compat. lraQ.
Qed.

Lemma Qltb_lt (a b : Q) : PyNum.Qltb a b = true ↔ (a < b)%Q.
Proof.
  unfold PyNum.Qltb. rewrite negb_true_iff. split.
  - intros Hf. apply Qnot_le_lt. intros Hle%Qle_bool_iff. congruence.
  - intros Hlt. destruct (Qle_bool b a) eqn:Hle; [|done].
    apply Qle_bool_iff in Hle. lraQ.
Qed.

Lemma py_min_nonneg (a b : Q) : (0 <= a → 0 <= b → 0 <= PyNum.min a b)%Q.
Proof. intros Ha Hb. unfold PyNum.min. by destruct (PyNum.Qltb b a). Qed.

Lemma round_nonneg (x : Q) : (0 < x)%Q → (0 ≤ PyNum.round x)%Z.
Proof.
  intros Hx.
  assert (Hf : (0 ≤ Qfloor x)%Z).
  { change 0%Z with (Qfloor 0). apply Qfloor_resp_le. lraQ. }
  unfold PyNum.round.
  destruct (_ ?= _)%Q; [destruct (Z.even _)| |]; lia.
Qed.

Lemma max_by_elem {A} (ltb : A → A → bool) (x : A) (xs : list A) :
  PyNum.max_by ltb x xs ∈ x :: xs.
Proof.
  unfold PyNum.max_by. revert x.
  induction xs as [|y xs IH]; intros x; cbn; [by left|].
  destruct (ltb x y).
  - right. apply IH.
  - specialize (IH x). apply elem_of_cons in IH as [->|Hin]; [by left|].
    by do 2 right.
Qed.

Lemma counter_add_keys (k k' : Z) (freq : list (Z * nat)) :
  k' ∈ map fst (counter_add k freq) → k' = k ∨ k' ∈ map fst freq.
Proof.
  induction freq as [|[k0 n] freq IH]; cbn.
  - intros Hin%list_elem_of_singleton. by left.
  - destruct (k =? k0)%Z eqn:Hk; cbn; [by right|].
    intros [->|Hin]%elem_of_cons; [right; by left|].
    destruct (IH Hin) as [->|Hin']; [by left|right; by right].
Qed.

Lemma Counter_keys (xs : list Z) (k : Z) : k ∈ map fst (Counter xs) → k ∈ xs.
Proof.
  unfold Counter.
  assert (Hgen : ∀ freq, k ∈ map fst (foldl (λ freq k, counter_add k freq) freq xs) →
                         k ∈ map fst freq ∨ k ∈ xs).
  { induction xs as [|x xs IH]; intros freq Hin; cbn in *; [by left|].
    destruct (IH _ Hin) as [Hk|Hk]; [|right; by right].
    apply counter_add_keys in Hk as [->|Hk]; [right; by left|by left]. }
  intros Hin. destruct (Hgen [] Hin) as [Hk|Hk]; [by apply elem_of_nil in Hk|done].
Qed.

Lemma most_common_key_elem (freq : list (Z * nat)) :
  freq ≠ [] → most_common_key freq ∈ map fst freq.
Proof.
  destruct freq as [|kv rest]; [done|]. intros _. unfold most_common_key.
  apply list_elem_of_In, in_map, list_elem_of_In, max_by_elem.
Qed.

(** The body size is a rounded positive size, or 0. *)
Lemma cluster_body_nonneg (blocks : list block) : (0 ≤ (cluster_font_sizes blocks).1)%Z.
Proof.
  unfold cluster_font_sizes.
  destruct (List.filter _ _) as [|s sizes] eqn:Hsizes; [done|].
  cbn [fst].
  destruct (Counter (map PyNum.round (s :: sizes))) as [|kv rest] eqn:Hfreq.
  - done.
  - assert (Hin : most_common_key (kv :: rest) ∈ map fst (kv :: rest))
      by by apply most_common_key_elem.
    rewrite <- Hfreq in Hin. apply Counter_keys in Hin.
    apply list_elem_of_In, in_map_iff in Hin as (x & Hx & Hin).
    rewrite <- Hfreq, <- Hx. apply round_nonneg.
    rewrite <- Hsizes in Hin. apply filter_In in Hin as [_ Hpos].
    by apply Qltb_lt.
Qed.

Lemma heading_score_nonneg (body primary : Z) (ly : Q) (lp : Z) (b : block) :
  (0 < body)%Z →
  (body < primary)%Z →
  (inject_Z body < font_size b)%Q →
  page b ≠ lp ∨ (ly <= y0 (bbox b))%Q →
  (0 <= heading_score body primary ly lp b)%Q.
Proof.
  intros Hbody Hprim Hsize Hgap. unfold heading_score.
  apply Z.ltb_lt in Hprim as Hprimb. rewrite Hprimb.
  assert (Hb : (0 < inject_Z body)%Q) by (rewrite <- (Zlt_Qlt 0); done).
  assert (Hp : (inject_Z body < inject_Z primary)%Q) by (by rewrite <- Zlt_Qlt).
  assert (Hterm : (0 <= (font_size b - inject_Z body)
                        / (inject_Z primary - inject_Z body) * W_FONT_SIZE)%Q).
  { apply Qmult_le_0_compat; [|done]. apply Qdiv_nonneg; lraQ. }
  assert (Hfactor : (0 <= PyNum.min 2
                      ((if (page b =? lp)%Z then y0 (bbox b) - ly
                        else inject_Z body * 2) / inject_Z body))%Q).
  { apply py_min_nonneg; [done|]. apply Qdiv_nonneg; [|done].
    destruct (page b =? lp)%Z eqn:Hpage; [|lraQ].
    apply Z.eqb_eq in Hpage. destruct Hgap as [Hne|Hle]; [done|lraQ]. }
  revert Hterm Hfactor.
  generalize ((font_size b - inject_Z body)
              / (inject_Z primary - inject_Z body) * W_FONT_SIZE)%Q.
  generalize (PyNum.min 2
                ((if (page b =? lp)%Z then y0 (bbox b) - ly
                  else inject_Z body * 2) / inject_Z body)).
  intros factor term Hterm Hfactor.
  assert (Hgapterm : (0 <= factor * W_VERTICAL_GAP)%Q)
    by (by apply Qmult_le_0_compat).
  revert Hgapterm. generalize (factor * W_VERTICAL_GAP)%Q. intros gapterm Hgapterm.
  unfold W_IS_BOLD, W_TEXT_LENGTH.
  destruct (bold b), (_ || _); lraQ.
Qed.

Section score_sign.
Context `{PyLib}.

Lemma basic_filtered_size (body : Z) (ttl : str) (b : block) :
  basic_filtered body ttl b = false → (inject_Z body < font_size b)%Q.
Proof.
  unfold basic_filtered. intros [[Hsize _]%orb_false_elim _]%orb_false_elim.
  apply Qnot_le_lt. intros Hle%Qle_bool_iff. congruence.
Qed.

(** C5 (amended): every candidate is recorded at a line of the input, with
    the score computed from the state that the lines before it left; the
    score is not negative when the vertical gap is not: the line is on
    another page than the line before it, or its top edge is not above the
    bottom edge that the state holds. *)
Theorem candidate_score_nonneg (blocks : list block) (ttl : str) (c : candidate) :
  c ∈ candidates_of blocks ttl →
  ∃ pre post,
    blocks = pre ++ cand_block c :: post
    ∧ c = candidate_in (cluster_font_sizes blocks).1 (cluster_font_sizes blocks).2
            (score_loop ttl (cluster_font_sizes blocks).1 (cluster_font_sizes blocks).2
               (identify_repeated_elements blocks 3) pre)
            (cand_block c)
    ∧ (page (cand_block c)
         ≠ last_page (score_loop ttl (cluster_font_sizes blocks).1
                        (cluster_font_sizes blocks).2
                        (identify_repeated_elements blocks 3) pre)
       ∨ (last_y1 (score_loop ttl (cluster_font_sizes blocks).1
                     (cluster_font_sizes blocks).2
                     (identify_repeated_elements blocks 3) pre)
          <= y0 (bbox (cand_block c)))%Q →
       (0 <= score c)%Q).
Proof.
  unfold candidates_of.
  pose proof (cluster_body_nonneg blocks) as Hnonneg.
  destruct (cluster_font_sizes blocks) as [body primary]. cbn [fst snd] in *.
  destruct (_ || _) eqn:Hguard; [by intros ?%elem_of_nil|].
  apply orb_false_elim in Hguard as [Hzero Hle].
  apply Z.eqb_neq in Hzero. apply Z.leb_gt in Hle.
  intros (pre & b & post & -> & Hb & ->)%loop_candidates.
  exists pre, post. cbn [cand_block candidate_in score].
  split; [done|]. split; [done|].
  apply heading_score_nonneg; [lia|done|].
  apply orb_false_elim in Hb as [Hb _]. by apply basic_filtered_size in Hb.
Qed.

(** On lines that do not overlap, all scores are non-negative. *)
Lemma well_spaced_scores_nonneg (blocks : list block) (ttl : str) :
  well_spaced blocks →
  Forall (λ c, (0 <= score c)%Q) (candidates_of blocks ttl).
Proof.
  intros [Htop Hspaced]. apply Forall_forall. intros c.
  unfold candidates_of.
  pose proof (cluster_body_nonneg blocks) as Hnonneg.
  destruct (cluster_font_sizes blocks) as [body primary]. cbn [fst snd] in *.
  destruct (_ || _) eqn:Hguard; [by intros ?%elem_of_nil|].
  apply orb_false_elim in Hguard as [Hzero Hle].
  apply Z.eqb_neq in Hzero. apply Z.leb_gt in Hle.
  intros (pre & b & post & Hsplit & Hb & ->)%loop_candidates.
  cbn [candidate_in score].
  assert (Hy0 : (0 <= y0 (bbox b))%Q).
  { rewrite Forall_forall in Htop. apply Htop. rewrite Hsplit.
    apply elem_of_app. right. by left. }
  apply heading_score_nonneg; [lia|done| |].
  { apply orb_false_elim in Hb as [Hb _]. by apply basic_filtered_size in Hb. }
  destruct pre as [|p pre _] using rev_ind; [by right|].
  rewrite loop_last_page, loop_last_y1.
  destruct (decide (page b = page p)) as [Hpage|Hpage]; [right|by left].
  destruct (_ && _); [done|].
  apply (Hspaced pre p b post); [|done].
  by rewrite Hsplit, <- app_assoc.
Qed.

End score_sign.

Lemma candidate_score_nonneg_witness :
  ∃ pre post,
    blocks_body_first = pre ++ heading_after_body :: post
    ∧ (page heading_after_body
         ≠ last_page (score_loop (H:=example_lib) []
                        (cluster_font_sizes blocks_body_first).1
                        (cluster_font_sizes blocks_body_first).2
                        (identify_repeated_elements blocks_body_first 3) pre)
       ∨ (last_y1 (score_loop (H:=example_lib) []
                     (cluster_font_sizes blocks_body_first).1
                     (cluster_font_sizes blocks_body_first).2
                     (identify_repeated_elements blocks_body_first 3) pre)
          <= y0 (bbox heading_after_body))%Q →
       (0 <= heading_score 10 20 0 1 heading_after_body)%Q).
Proof.
  destruct (candidate_score_nonneg (H:=example_lib) blocks_body_first []
              (candidate_in 10 20
                 (score_loop (H:=example_lib) [] 10 20 ∅ [body_line_first])
                 heading_after_body))
    as (pre & post & Hsplit & _ & Hsign).
  - vm_compute. left.
  - exists pre, post. split; [exact Hsplit|exact Hsign].
Defined.

(** C5 as stated fails: the heading of the right column, whose top edge
    121 lies above the bottom edge 132 of the line before it, is recorded
    with the score 25 - 1.1 * 40 = -19. *)
Lemma overlapping_line_negative_score :
  cluster_font_sizes blocks_two_columns = (10, 12)%Z
  ∧ Forall2 (λ c s, cand_block c = right_column_heading ∧ (score c == s)%Q)
      (candidates_of (H:=example_lib) blocks_two_columns []) [(-19)%Q]
  ∧ ¬ Forall (λ c, (0 <= score c)%Q)
        (candidates_of (H:=example_lib) blocks_two_columns []).
Proof.
  split; [by vm_compute|]. split.
  - vm_compute. constructor; [|constructor]. split; reflexivity.
  - intros Hall. vm_compute in Hall.
    apply Forall_cons_1 in Hall as [Hneg _]. by apply Hneg.
Qed.

(** ** Repeated elements *)

Lemma elem_of_key_pages (blocks : list block) (k : str * Z) (p : Z) :
  p ∈ key_pages blocks k ↔ ∃ b, b ∈ blocks ∧ block_key b = k ∧ page b = p.
Proof.
  unfold key_pages. rewrite elem_of_list_to_set, list_elem_of_In, in_map_iff.
  split.
  - intros (b & Hp & [Hin Hk]%filter_In).
    exists b. apply bool_decide_eq_true in Hk. by rewrite list_elem_of_In.
  - intros (b & Hin & Hk & Hp). exists b. split; [done|].
    apply filter_In. rewrite <- list_elem_of_In. split; [done|].
    by apply bool_decide_eq_true.
Qed.

Lemma key_pages_cons (b : block) (blocks : list block) (k : str * Z) :
  key_pages (b :: blocks) k
  = if decide (block_key b = k) then {[page b]} ∪ key_pages blocks k
    else key_pages blocks k.
Proof.
  unfold key_pages. cbn [List.filter].
  destruct (decide (block_key b = k)) as [Hk|Hk].
  - by rewrite bool_decide_eq_true_2.
  - by rewrite bool_decide_eq_false_2.
Qed.


Lemma record_position_lookup (tp : gmap (str * Z) (gset Z)) (b : block) (k : str * Z) :
  record_position tp b !! k
  = if decide (block_key b = k) then Some (default ∅ (tp !! k) ∪ {[page b]})
    else tp !! k.
Proof.
  unfold record_position.
  destruct (decide (block_key b = k)) as [<-|Hne].
  - destruct (tp !! block_key b) as [pages|] eqn:Hk.
    + by rewrite lookup_alter_eq, Hk.
    + by rewrite lookup_alter_eq, lookup_insert_eq.
  - rewrite lookup_alter_ne by done.
    destruct (tp !! block_key b); [done|]. by rewrite lookup_insert_ne.
Qed.

(** The map that the loop builds from [tp]. *)
Lemma positions_lookup (blocks : list block) (tp : gmap (str * Z) (gset Z)) (k : str * Z) :
  foldl record_position tp blocks !! k
  = match tp !! k with
    | Some pages => Some (pages ∪ key_pages blocks k)
    | None => if decide (key_pages blocks k = ∅) then None
              else Some (key_pages blocks k)
    end.
Proof.
  revert tp. induction blocks as [|b blocks IH]; intros tp.
  - cbn. destruct (tp !! k) as [pages|].
    + f_equal. set_solver.
    + by rewrite decide_True.
  - cbn [foldl]. rewrite IH, record_position_lookup, key_pages_cons.
    destruct (decide (block_key b = k)) as [Hk|Hk].
    + rewrite decide_False by set_solver.
      destruct (tp !! k) as [pages|]; cbn; f_equal; set_solver.
    + done.
Qed.

Lemma elem_of_repeated (blocks : list block) (n : nat) (k : str * Z) :
  k ∈ identify_repeated_elements blocks n
  ↔ key_pages blocks k ≠ ∅ ∧ n ≤ size (key_pages blocks k).
Proof.
  unfold identify_repeated_elements.
  rewrite elem_of_dom. unfold is_Some.
  setoid_rewrite map_lookup_filter_Some.
  setoid_rewrite positions_lookup. rewrite lookup_empty. cbn.
  destruct (decide (key_pages blocks k = ∅)) as [Hempty|Hne].
  - split; [by intros (pages & ? & _)|by intros [? _]].
  - split.
    + by intros (pages & [= <-] & Hsize).
    + intros [_ Hsize]. eauto.
Qed.

Lemma elem_of_repeated_3 (blocks : list block) (k : str * Z) :
  k ∈ identify_repeated_elements blocks 3 ↔ 3 ≤ size (key_pages blocks k).
Proof.
  rewrite elem_of_repeated. split; [by intros [_ ?]|].
  intros Hsize. split; [|done].
  intros Hempty. rewrite Hempty, size_empty in Hsize. lia.
Qed.


Section boilerplate.
Context `{PyLib}.



End boilerplate.


(** The running header of the example is repeated, and the heading of the
    third page is the only candidate. *)
Example header_is_repeated :
  block_key (running_header 2) ∈ identify_repeated_elements blocks_with_header 3
  ∧ map cand_block (candidates_of (H:=example_lib) blocks_with_header [])
    = [methods_heading].
Proof.
  split; [|by vm_compute].
  apply elem_of_repeated_3. vm_compute. lia.
Qed.

(** ** The classification evaluated in the rationals *)

Lemma Q2R_inject_nat (n : nat) : Q2R (inject_Z (Z.of_nat n)) = INR n.
Proof. unfold Q2R. cbn. rewrite INR_IZR_INZ. lraR. Qed.

Lemma Q2R_Qsum (xs : list Q) : Q2R (Qsum xs) = np_sum (map Q2R xs).
Proof.
  induction xs as [|x xs IH].
  - apply RMicromega.Q2R_0.
  - change (Qsum (x :: xs)) with (x + Qsum xs)%Q.
    change (np_sum (map Q2R (x :: xs))) with (Q2R x + np_sum (map Q2R xs))%R.
    by rewrite Qreals.Q2R_plus, IH.
Qed.

Lemma Q2R_Qmean (xs : list Q) : xs ≠ [] → Q2R (Qmean xs) = np_mean (map Q2R xs).
Proof.
  intros Hne. unfold Qmean, np_mean.
  rewrite Qreals.Q2R_div, Q2R_Qsum, Q2R_inject_nat, List.length_map; [done|].
  intros Hzero. destruct xs as [|x xs]; [done|].
  apply (Qeq_bool_neq (inject_Z (Z.of_nat (length (x :: xs)))) 0); [|done].
  reflexivity.
Qed.

Lemma Q2R_Qvariance (xs : list Q) :
  xs ≠ [] →
  Q2R (Qvariance xs)
  = np_mean (map (λ x, (Rabs (x - np_mean (map Q2R xs)))²)%R (map Q2R xs)).
Proof.
  intros Hne. unfold Qvariance.
  rewrite Q2R_Qmean by (by destruct xs).
  rewrite !List.map_map. f_equal. apply map_ext. intros x.
  rewrite Qreals.Q2R_mult, Qreals.Q2R_minus, Q2R_Qmean by done.
  rewrite <- Rsqr_abs. reflexivity.
Qed.

Lemma np_mean_squares_nonneg (f : R → R) (xs : list R) :
  (0 <= np_mean (map (λ x, (f x)²) xs))%R.
Proof.
  unfold np_mean. rewrite List.length_map.
  assert (Hsum : (0 <= np_sum (map (λ x, (f x)²) xs))%R).
  { induction xs as [|x xs IH]; [cbn; lraR|].
    change (0 <= (f x)² + np_sum (map (λ x, (f x)²) xs))%R.
    apply Rplus_le_le_0_compat; [apply Rle_0_sqr|exact IH]. }
  destruct xs as [|x xs].
  - cbn. lraR.
  - apply Rmult_le_pos; [done|].
    apply Rlt_le, Rinv_0_lt_compat, lt_0_INR. cbn. lia.
Qed.

Lemma Qle_bool_Rge (a b : Q) : Qle_bool a b = true ↔ (Q2R b >= Q2R a)%R.
Proof.
  rewrite Qle_bool_iff. split.
  - intros Hle%Qreals.Qle_Rle. lraR.
  - intros Hge. apply Qreals.Rle_Qle. lraR.
Qed.

(** Comparing with a multiple of a square root by comparing squares. *)
Lemma Rge_plus_sqrt (s m v : R) :
  (0 <= v)%R →
  (s >= m + sqrt v * (8 / 10))%R
  ↔ (s >= m)%R ∧ ((s - m) * (s - m) >= 64 / 100 * v)%R.
Proof.
  intros Hv.
  pose proof (sqrt_pos v) as Hpos.
  pose proof (sqrt_sqrt v Hv) as Hsq.
  split.
  - intros Hge. split; [lraR|]. Lra.nra.
  - intros [Hge Hsquares].
    destruct (Rge_dec s (m + sqrt v * (8 / 10))) as [|Hlt]; [done|].
    apply Rnot_ge_lt in Hlt. Lra.nra.
Qed.

Lemma reaches_h1_spec (xs : list Q) (s : Q) :
  xs ≠ [] →
  reaches_h1 xs s = true ↔ (Q2R s >= h1_threshold (map Q2R xs))%R.
Proof.
  intros Hne. unfold reaches_h1, h1_threshold, np_std.
  rewrite List.length_map.
  destruct (length xs <? 3)%nat.
  - by rewrite Qle_bool_Rge, Q2R_Qmean.
  - rewrite Rge_plus_sqrt by apply np_mean_squares_nonneg.
    rewrite andb_true_iff, !Qle_bool_Rge, Q2R_Qmean by done.
    rewrite !Qreals.Q2R_mult, Qreals.Q2R_minus, Q2R_Qmean, Q2R_Qvariance by done.
    replace (Q2R (64 # 100)) with (64 / 100)%R by (unfold Q2R; cbn; lraR).
    reflexivity.
Qed.

Lemma reaches_h2_spec (xs : list Q) (s : Q) :
  xs ≠ [] →
  reaches_h2 xs s = true ↔ (Q2R s >= h2_threshold (map Q2R xs))%R.
Proof.
  intros Hne. unfold reaches_h2, h2_threshold.
  rewrite Qle_bool_Rge, Qreals.Q2R_mult, Q2R_Qmean by done.
  replace (Q2R (9 # 10)) with (9 / 10)%R by (unfold Q2R; cbn; lraR).
  reflexivity.
Qed.

Lemma heading_level_exec_eq (xs : list Q) (s : Q) :
  xs ≠ [] →
  heading_level (h1_threshold (map Q2R xs)) (h2_threshold (map Q2R xs)) s
  = heading_level_exec xs s.
Proof.
  intros Hne. unfold heading_level, heading_level_exec.
  pose proof (reaches_h1_spec xs s Hne) as H1.
  pose proof (reaches_h2_spec xs s Hne) as H2.
  destruct (Rge_dec _ _) as [Hge1|Hlt1].
  - apply H1 in Hge1. by rewrite Hge1.
  - destruct (reaches_h1 xs s); [by destruct Hlt1; apply H1|].
    destruct (Rge_dec _ _) as [Hge2|Hlt2].
    + apply H2 in Hge2. by rewrite Hge2.
    + destruct (reaches_h2 xs s); [by destruct Hlt2; apply H2|done].
Qed.

(** [classify_headings] is the function that evaluates. *)
Lemma classify_headings_exec_eq `{PyLib} blocks ttl lang :
  classify_headings blocks ttl lang = classify_headings_exec blocks ttl lang.
Proof.
  rewrite classify_headings_candidates, classify_candidates_entries.
  unfold classify_headings_exec, classify_candidates_exec.
  generalize (candidates_of blocks ttl). intros cands.
  destruct cands as [|c0 cands]; [done|].
  apply map_ext. intros c. unfold entry_of, scores_of. f_equal.
  rewrite <- (List.map_map score Q2R). by apply heading_level_exec_eq.
Qed.

(** The outlines of three of the examples. *)
Example outline_body_first :
  classify_headings (H:=example_lib) blocks_body_first [] no_numbering
  = [ {| level := PyStr.lit "H1"; entry_text := PyStr.lit "Heading"; entry_page := 1 |} ].
Proof. rewrite classify_headings_exec_eq. by vm_compute. Qed.

Example outline_with_header :
  classify_headings (H:=example_lib) blocks_with_header [] no_numbering
  = [ {| level := PyStr.lit "H1"; entry_text := PyStr.lit "Methods"; entry_page := 3 |} ].
Proof. rewrite classify_headings_exec_eq. by vm_compute. Qed.

(** ** The headings that are too short *)

Section final_texts.
Context `{PyLib}.

(** C8: the outline has exactly one entry for each candidate whose final
    text (normalized, and the numbering stripped when the pattern of the
    language matches) has at least 3 characters, in the order of the
    candidates, with that final text and the page of the line; a
    candidate whose final text has fewer than 3 characters has no entry
    at all.  With the pattern of decimal numbering, the headings "aab"
    (final text "ab") and "7 A" (final text "A") are dropped, while
    "2.1 Introduction" and "Summary" are kept as "Introduction" and
    "Sumary"; without a pattern "7 A" is kept as it is. *)
Theorem short_headings_dropped :
  (∀ blocks ttl lang,
     Forall2 (λ c e, entry_text e = final_text lang (text (cand_block c))
                     ∧ entry_page e = page (cand_block c))
             (List.filter
                (λ c, (3 <=? length (final_text lang (text (cand_block c))))%nat)
                (candidates_of blocks ttl))
             (classify_headings blocks ttl lang)
     ∧ Forall (λ e, 3 ≤ length (entry_text e)) (classify_headings blocks ttl lang))
  ∧ (map (λ c, text (cand_block c))
         (candidates_of (H:=example_lib) blocks_short_headings [])
     = [ PyStr.lit "aab"; PyStr.lit "2.1 Introduction"; PyStr.lit "7 A";
         PyStr.lit "Summary" ]
     ∧ map (λ c, final_text (H:=example_lib) with_numbering (text (cand_block c)))
           (candidates_of (H:=example_lib) blocks_short_headings [])
       = [ PyStr.lit "ab"; PyStr.lit "Introduction"; PyStr.lit "A"; PyStr.lit "Sumary" ]
     ∧ map entry_text
           (classify_headings (H:=example_lib) blocks_short_headings [] with_numbering)
       = [ PyStr.lit "Introduction"; PyStr.lit "Sumary" ]
     ∧ map entry_text
           (classify_headings (H:=example_lib) blocks_short_headings [] no_numbering)
       = [ PyStr.lit "2.1 Introduction"; PyStr.lit "7 A"; PyStr.lit "Sumary" ]).
Proof.
  split.
  - intros blocks ttl lang.
    rewrite classify_headings_candidates, classify_candidates_entries.
    set (cands := candidates_of blocks ttl).
    change (List.filter (long_enough lang) cands)
      with (List.filter
              (λ c, (3 <=? length (final_text lang (text (cand_block c))))%nat) cands).
    split.
    + apply Forall2_fmap_r, Forall_Forall2_diag, Forall_forall.
      intros c _. split; [apply heading_text_final|done].
    + apply Forall_forall. intros e He.
      apply list_elem_of_In, in_map_iff in He as (c & <- & Hc).
      apply filter_In in Hc as [_ Hc]. apply Nat.leb_le in Hc.
      cbn [entry_of entry_text]. by rewrite heading_text_final.
  - split; [by vm_compute|]. split; [by vm_compute|].
    rewrite !classify_headings_exec_eq. split; by vm_compute.
Qed.

End final_texts.

(** The outline of the page of the short headings, with the levels. *)
Example outline_short_headings :
  classify_headings (H:=example_lib) blocks_short_headings [] with_numbering
  = [ {| level := PyStr.lit "H2"; entry_text := PyStr.lit "Introduction"; entry_page := 1 |};
      {| level := PyStr.lit "H2"; entry_text := PyStr.lit "Sumary"; entry_page := 1 |} ].
Proof. rewrite classify_headings_exec_eq. by vm_compute. Qed.

(** * Further properties of the code *)

(** ** normalize_text: what it removes and what it leaves *)

Section normalize_more.
Context `{PyLib}.

Lemma normalize_from_no_repeat (s : str) (p : N) :
  no_repeat_from p (normalize_from p s) = true.
Proof.
  revert p. induction s as [|c s IH]; intros p; [done|].
  cbn [normalize_from].
  destruct (negb (bool_decide (p = c)) || negb (isalnum c)) eqn:Hk.
  - cbn [no_repeat_from]. by rewrite Hk, IH.
  - apply orb_false_elim in Hk as [Hpc _].
    apply negb_false_iff, bool_decide_eq_true in Hpc. subst c. apply IH.
Qed.

Lemma normalize_from_fixed (s : str) (p : N) :
  no_repeat_from p s = true → normalize_from p s = s.
Proof.
  revert p. induction s as [|c s IH]; intros p; [done|].
  cbn [no_repeat_from normalize_from]. intros [Hk Hs]%andb_true_iff.
  by rewrite Hk, IH.
Qed.

Lemma normalize_from_sublist (s : str) (p : N) : normalize_from p s `sublist_of` s.
Proof.
  revert p. induction s as [|c s IH]; intros p; [constructor|].
  cbn [normalize_from]. destruct (_ || _).
  - by apply sublist_skip.
  - by apply sublist_cons.
Qed.

Lemma no_repeat_from_lookup (t : str) (p : N) :
  no_repeat_from p t = true
  ↔ (∀ c, head t = Some c → p = c → isalnum c = false)
    ∧ (∀ i c, t !! i = Some c → t !! S i = Some c → isalnum c = false).
Proof.
  revert p. induction t as [|d t IH]; intros p.
  - cbn. split; [|done]. intros _. split; [done|]. intros i c Hi. by rewrite lookup_nil in Hi.
  - cbn [no_repeat_from head]. rewrite andb_true_iff, IH. split.
    + intros [Hk [Hhead Hpairs]]. split.
      * intros c [= <-] ->. rewrite bool_decide_eq_true_2 in Hk by done.
        cbn in Hk. by apply negb_true_iff in Hk.
      * intros [|i] c Hi Hsi.
        -- cbn in Hi. injection Hi as ->. cbn in Hsi.
           apply Hhead; [|done]. by destruct t; cbn in *; simplify_eq.
        -- by apply (Hpairs i c).
    + intros [Hhead Hpairs]. split; [|split].
      * destruct (decide (p = d)) as [->|Hne].
        -- rewrite bool_decide_eq_true_2 by done. cbn.
           apply negb_true_iff. by apply Hhead.
        -- by rewrite bool_decide_eq_false_2.
      * intros c Hc <-. apply (Hpairs 0%nat d); [done|].
        cbn. by destruct t; cbn in *; simplify_eq.
      * intros i c Hi Hsi. by apply (Hpairs (S i) c).
Qed.

Lemma no_repeat_lookup (t : str) :
  no_repeat t = true
  ↔ ∀ i c, t !! i = Some c → t !! S i = Some c → isalnum c = false.
Proof.
  destruct t as [|d t].
  - split; [|done]. intros _ i c Hi. by rewrite lookup_nil in Hi.
  - cbn [no_repeat]. rewrite no_repeat_from_lookup. split.
    + intros [Hhead Hpairs] [|i] c Hi Hsi.
      * cbn in Hi. injection Hi as ->. cbn in Hsi.
        apply Hhead; [|done]. by destruct t; cbn in *; simplify_eq.
      * by apply (Hpairs i c).
    + intros Hpairs. split.
      * intros c Hc <-. apply (Hpairs 0%nat d); [done|].
        cbn. by destruct t; cbn in *; simplify_eq.
      * intros i c Hi Hsi. by apply (Hpairs (S i) c).
Qed.

Lemma normalize_text_no_repeat (s : str) : no_repeat (normalize_text s) = true.
Proof.
  destruct s as [|c s]; [done|].
  rewrite normalize_text_cons. apply normalize_from_no_repeat.
Qed.

(** X1: in a normalized text, a character that equals the character
    before it is not alphanumeric. *)
Theorem normalize_text_adjacent (s : str) (i : nat) (c : N) :
  normalize_text s !! i = Some c →
  normalize_text s !! S i = Some c →
  isalnum c = false.
Proof.
  revert i c. apply no_repeat_lookup, normalize_text_no_repeat.
Qed.

(** X2: the texts that normalization leaves unchanged are exactly those in
    which no alphanumeric character repeats the character before it. *)
Theorem normalize_text_fixed_points (s : str) :
  normalize_text s = s
  ↔ ∀ i c, s !! i = Some c → s !! S i = Some c → isalnum c = false.
Proof.
  rewrite <- no_repeat_lookup. split.
  - intros <-. apply normalize_text_no_repeat.
  - destruct s as [|c s]; [done|]. cbn [no_repeat]. intros Hs.
    by rewrite normalize_text_cons, normalize_from_fixed.
Qed.

(** X3: normalization only deletes characters: the result is a
    subsequence of the text, not longer than it, and begins with the same
    character. *)
Theorem normalize_text_sublist (s : str) :
  normalize_text s `sublist_of` s
  ∧ length (normalize_text s) ≤ length s
  ∧ head (normalize_text s) = head s.
Proof.
  assert (Hsub : normalize_text s `sublist_of` s).
  { destruct s as [|c s]; [constructor|].
    rewrite normalize_text_cons. apply sublist_skip, normalize_from_sublist. }
  split; [done|]. split; [by apply sublist_length|].
  destruct s as [|c s]; [done|]. by rewrite normalize_text_cons.
Qed.

End normalize_more.

Lemma normalize_text_adjacent_witness :
  normalize_text (H:=example_lib) (PyStr.lit "aaab  bb11!!") !! 2%nat = Some 32%N
  ∧ isalnum (PyLib:=example_lib) 32%N = false.
Proof.
  split; [reflexivity|].
  apply (normalize_text_adjacent (H:=example_lib) (PyStr.lit "aaab  bb11!!") 2 32);
    reflexivity.
Defined.

(** ** strip *)

Lemma lstrip_head (s : str) (c : N) :
  head (PyStr.lstrip s) = Some c → PyStr.isspace c = false.
Proof.
  induction s as [|d s IH]; [done|]. cbn [PyStr.lstrip].
  destruct (PyStr.isspace d) eqn:Hd; [done|]. by intros [= <-].
Qed.

Lemma lstrip_fixed (s : str) :
  (∀ c, head s = Some c → PyStr.isspace c = false) → PyStr.lstrip s = s.
Proof.
  destruct s as [|d s]; [done|]. intros Hhead. cbn. by rewrite Hhead.
Qed.

Lemma lstrip_snoc (l : str) (c : N) :
  PyStr.isspace c = false → PyStr.lstrip (l ++ [c]) = PyStr.lstrip l ++ [c].
Proof.
  intros Hc. induction l as [|d l IH]; cbn; [by rewrite Hc|].
  by destruct (PyStr.isspace d).
Qed.

Lemma last_rev (s : str) : last (rev s) = head s.
Proof. destruct s as [|c s]; [done|]. cbn. by rewrite last_snoc. Qed.

Lemma strip_trimmed (s : str) : trimmed (PyStr.strip s).
Proof.
  unfold PyStr.strip, PyStr.rstrip. split.
  - pose proof (lstrip_head s) as Hhead.
    destruct (PyStr.lstrip s) as [|d t]; [done|].
    specialize (Hhead d eq_refl).
    cbn [rev]. rewrite lstrip_snoc by done.
    rewrite rev_app_distr. cbn. by intros c [= <-].
  - intros c. rewrite last_rev. apply lstrip_head.
Qed.

Lemma trimmed_strip (t : str) : trimmed t → PyStr.strip t = t.
Proof.
  intros [Hhead Hlast]. unfold PyStr.strip, PyStr.rstrip.
  rewrite (lstrip_fixed t) by done.
  rewrite lstrip_fixed; [apply rev_involutive|].
  intros c. rewrite <- (last_rev (rev t)), rev_involutive. apply Hlast.
Qed.

(** ** The first of the largest elements *)

Lemma max_by_max {A} (ltb : A → A → bool) (le : A → A → Prop) :
  (∀ a, le a a) →
  (∀ a b c, le a b → le b c → le a c) →
  (∀ a b, ltb a b = true → le a b) →
  (∀ a b, ltb a b = false → le b a) →
  ∀ x xs y, y ∈ x :: xs → le y (PyNum.max_by ltb x xs).
Proof.
  intros Hrefl Htrans Hlt Hge x xs. revert x.
  unfold PyNum.max_by.
  induction xs as [|z xs IH]; intros x y Hy; cbn [foldl].
  - apply list_elem_of_singleton in Hy as ->. apply Hrefl.
  - apply elem_of_cons in Hy as [->|Hy].
    + apply Htrans with (if ltb x z then z else x); [|apply IH; by left].
      destruct (ltb x z) eqn:Hxz; [by apply Hlt|apply Hrefl].
    + apply elem_of_cons in Hy as [->|Hy].
      * apply Htrans with (if ltb x z then z else x); [|apply IH; by left].
        destruct (ltb x z) eqn:Hxz; [apply Hrefl|by apply Hge].
      * apply IH. by right.
Qed.

Lemma max_by_first {A} (ltb : A → A → bool) :
  (∀ a b c, ltb a b = true → ltb b c = true → ltb a c = true) →
  (∀ a b c, ltb a b = false → ltb a c = true → ltb b c = true) →
  ∀ x xs, ∃ l1 l2,
    x :: xs = l1 ++ PyNum.max_by ltb x xs :: l2
    ∧ (∀ y, y ∈ l1 → ltb y (PyNum.max_by ltb x xs) = true)
    ∧ (∀ y, y ∈ l2 → ltb (PyNum.max_by ltb x xs) y = false).
Proof.
  intros T1 T2 x xs. unfold PyNum.max_by.
  assert (Hgen : ∀ l1 best mid,
            (∀ y, y ∈ l1 → ltb y best = true) →
            (∀ y, y ∈ mid → ltb best y = false) →
            ∃ l1' l2',
              l1 ++ best :: mid ++ xs
              = l1' ++ foldl (λ b y, if ltb b y then y else b) best xs :: l2'
              ∧ (∀ y, y ∈ l1' → ltb y (foldl (λ b y, if ltb b y then y else b) best xs) = true)
              ∧ (∀ y, y ∈ l2' → ltb (foldl (λ b y, if ltb b y then y else b) best xs) y = false)).
  { induction xs as [|z xs IH]; intros l1 best mid Hl1 Hmid; cbn [foldl].
    - exists l1, mid. by rewrite app_nil_r.
    - destruct (ltb best z) eqn:Hz.
      + destruct (IH (l1 ++ best :: mid) z []) as (l1' & l2' & Heq & H1 & H2).
        * intros y [Hy | [-> | Hy]%elem_of_cons]%elem_of_app.
          -- by apply T1 with best; [apply Hl1|].
          -- done.
          -- by apply T2 with best; [apply Hmid|].
        * by intros y ?%elem_of_nil.
        * exists l1', l2'. split; [|done].
          rewrite <- Heq. cbn. by rewrite <- app_assoc.
      + destruct (IH l1 best (mid ++ [z])) as (l1' & l2' & Heq & H1 & H2);
          [done| |].
        * intros y [Hy | ->%list_elem_of_singleton]%elem_of_app; [by apply Hmid|done].
        * exists l1', l2'. split; [|done].
          rewrite <- Heq. by rewrite <- app_assoc. }
  destruct (Hgen [] x []) as (l1 & l2 & Heq & H1 & H2);
    [by intros y ?%elem_of_nil|by intros y ?%elem_of_nil|].
  exists l1, l2. by rewrite <- Heq.
Qed.

Lemma Qltb_false (a b : Q) : PyNum.Qltb a b = false ↔ (b <= a)%Q.
Proof.
  unfold PyNum.Qltb. rewrite negb_false_iff. apply Qle_bool_iff.
Qed.

(** ** extract_text_blocks: the sort *)

Lemma sort_key_leb_spec (a b : block) : sort_key_leb a b = true ↔ key_le a b.
Proof.
  unfold sort_key_leb, key_le.
  rewrite orb_true_iff, andb_true_iff, Z.ltb_lt, Z.eqb_eq, Qle_bool_iff. tauto.
Qed.

Lemma key_le_total (a b : block) : key_le a b ∨ key_le b a.
Proof.
  unfold key_le.
  destruct (Z.lt_trichotomy (page a) (page b)) as [?|[Heq|?]]; [tauto| |tauto].
  destruct (Qlt_le_dec (y0 (bbox a)) (y0 (bbox b))) as [Hlt|Hle].
  - left. right. split; [done|lraQ].
  - right. right. by split.
Qed.

Lemma key_le_trans (a b c : block) : key_le a b → key_le b c → key_le a c.
Proof.
  unfold key_le. intros [?|[? ?]] [?|[? ?]]; [left; lia|left; lia|left; lia|].
  right. split; [lia|lraQ].
Qed.

Lemma insert_sorted_perm (b : block) (l : list block) : insert_sorted b l ≡ₚ b :: l.
Proof.
  induction l as [|c l IH]; cbn; [done|].
  destruct (sort_key_leb b c); [done|].
  by rewrite IH, Permutation_swap.
Qed.

Lemma sort_blocks_perm (l : list block) : sort_blocks l ≡ₚ l.
Proof.
  induction l as [|b l IH]; cbn; [done|].
  fold (sort_blocks l). by rewrite insert_sorted_perm, IH.
Qed.

Lemma insert_sorted_sorted (b : block) (l : list block) :
  StronglySorted key_le l → StronglySorted key_le (insert_sorted b l).
Proof.
  induction 1 as [|c l Hl IH Hc]; cbn.
  - repeat constructor.
  - destruct (sort_key_leb b c) eqn:Hbc.
    + apply sort_key_leb_spec in Hbc.
      constructor; [by constructor|].
      constructor; [done|].
      eapply Forall_impl; [exact Hc|]. intros d Hd. by apply key_le_trans with c.
    + constructor; [done|].
      rewrite insert_sorted_perm. constructor; [|done].
      destruct (key_le_total b c) as [Hle|Hle]; [|done].
      apply sort_key_leb_spec in Hle. congruence.
Qed.

Lemma sort_blocks_sorted (l : list block) : StronglySorted key_le (sort_blocks l).
Proof.
  induction l as [|b l IH]; cbn; [constructor|].
  by apply insert_sorted_sorted.
Qed.

Lemma same_key_insert (x b : block) (l : list block) :
  List.filter (same_key x) (insert_sorted b l)
  = List.filter (same_key x) (b :: l).
Proof.
  induction l as [|c l IH]; [done|].
  cbn [insert_sorted]. destruct (sort_key_leb b c) eqn:Hbc; [done|].
  cbn [List.filter] in *. rewrite IH.
  destruct (same_key x b) eqn:Hxb; [|done].
  destruct (same_key x c) eqn:Hxc; [|done].
  apply andb_true_iff in Hxb as [_ Hbx], Hxc as [Hxc _].
  apply sort_key_leb_spec in Hbx, Hxc.
  pose proof (key_le_trans _ _ _ Hbx Hxc) as Hle.
  apply sort_key_leb_spec in Hle. congruence.
Qed.

Lemma sort_blocks_stable (x : block) (l : list block) :
  List.filter (same_key x) (sort_blocks l) = List.filter (same_key x) l.
Proof.
  induction l as [|b l IH]; [done|].
  cbn [sort_blocks foldr]. fold (sort_blocks l).
  rewrite same_key_insert. cbn [List.filter]. by rewrite IH.
Qed.

Lemma extract_text_blocks_sorted_perm (doc : document) :
  extract_text_blocks doc ≡ₚ gathered_blocks doc
  ∧ StronglySorted key_le (extract_text_blocks doc).
Proof.
  unfold extract_text_blocks. fold (gathered_blocks doc).
  split; [apply sort_blocks_perm|apply sort_blocks_sorted].
Qed.

(** X4: the blocks that [extract_text_blocks] returns are the gathered
    lines in the order of (page, top edge): a permutation of them, sorted,
    in which the lines of equal key keep the order they were gathered
    in. *)
Theorem extract_text_blocks_sorted (doc : document) :
  extract_text_blocks doc ≡ₚ gathered_blocks doc
  ∧ StronglySorted key_le (extract_text_blocks doc)
  ∧ ∀ x, List.filter (same_key x) (extract_text_blocks doc)
         = List.filter (same_key x) (gathered_blocks doc).
Proof.
  unfold extract_text_blocks. fold (gathered_blocks doc).
  split; [apply sort_blocks_perm|].
  split; [apply sort_blocks_sorted|].
  intros x. apply sort_blocks_stable.
Qed.

(** ** extract_text_blocks: the blocks *)

Lemma main_span_max (s : span) (ss : list span) (sp : span) :
  sp ∈ s :: ss → (span_size sp <= span_size (main_span s ss))%Q.
Proof.
  unfold main_span.
  apply (max_by_max _ (λ a b, (span_size a <= span_size b)%Q)).
  - intros a. lraQ.
  - intros a b c ? ?. lraQ.
  - intros a b Hlt%Qltb_lt. lraQ.
  - intros a b Hge. by apply Qltb_false in Hge.
Qed.

Lemma page_text_blocks_elem (n : Z) (p : fitz_page) (b : block) :
  b ∈ page_text_blocks n p →
  text b ≠ [] ∧ trimmed (text b) ∧ page b = n
  ∧ ∃ rb ls ln,
      rb ∈ text_dict_blocks p ∧ lines rb = Some ls ∧ ln ∈ ls
      ∧ bbox b = line_bbox ln
      ∧ text b = PyStr.strip (PyStr.join (PyStr.lit " ") (map span_text (spans ln)))
      ∧ ∃ sp, sp ∈ spans ln
              ∧ font_size b = span_size sp
              ∧ bold b = Z.testbit (span_flags sp) 1
              ∧ ∀ sp', sp' ∈ spans ln → (span_size sp' <= span_size sp)%Q.
Proof.
  unfold page_text_blocks. intros Hb%list_elem_of_In.
  apply in_flat_map in Hb as (rb & Hrb & Hb).
  destruct (lines rb) as [ls|] eqn:Hls; [|done].
  apply in_flat_map in Hb as (ln & Hln & Hb).
  destruct (spans ln) as [|s ss] eqn:Hspans; [done|].
  destruct (PyStr.strip _) as [|c t] eqn:Htext; [done|].
  destruct Hb as [<-|[]]. cbn [text page bbox font_size bold].
  split; [done|]. split; [rewrite <- Htext; apply strip_trimmed|]. split; [done|].
  apply list_elem_of_In in Hrb, Hln.
  exists rb, ls, ln. rewrite Hspans.
  do 5 (split; [done|]).
  exists (main_span s ss).
  split; [apply max_by_elem|]. do 2 (split; [done|]).
  apply main_span_max.
Qed.

Lemma gathered_blocks_elem (doc : document) (b : block) :
  b ∈ gathered_blocks doc →
  ∃ i p, pages doc !! i = Some p ∧ b ∈ page_text_blocks (Z.of_nat i + 1) p.
Proof.
  unfold gathered_blocks. intros (l & Hb & Hl)%list_elem_of_join.
  apply elem_of_lookup_imap in Hl as (i & p & -> & Hp). eauto.
Qed.

(** X5: every block of [extract_text_blocks] has a text that is not
    empty and neither begins nor ends with white space, and a page number
    between 1 and the number of pages. *)
Theorem extract_text_blocks_wf (doc : document) (b : block) :
  b ∈ extract_text_blocks doc →
  text b ≠ [] ∧ trimmed (text b) ∧ (1 ≤ page b ≤ page_count doc)%Z.
Proof.
  intros Hb. rewrite (proj1 (extract_text_blocks_sorted_perm doc)) in Hb.
  apply gathered_blocks_elem in Hb as (i & p & Hp & Hb).
  apply page_text_blocks_elem in Hb as (Htext & Htrim & -> & _).
  do 2 (split; [done|]).
  apply lookup_lt_Some in Hp. unfold page_count. lia.
Qed.

(** X6: every block of [extract_text_blocks] is made of one line of the
    page it names: it has the line's bounding box, its text is the
    trimmed join of the texts of the line's spans, and its font size and
    boldness are those of a span of the line whose size no span of the
    line exceeds. *)
Theorem extract_text_blocks_line (doc : document) (b : block) :
  b ∈ extract_text_blocks doc →
  ∃ p rb ls ln,
    pages doc !! Z.to_nat (page b - 1) = Some p
    ∧ rb ∈ text_dict_blocks p ∧ lines rb = Some ls ∧ ln ∈ ls
    ∧ bbox b = line_bbox ln
    ∧ text b = PyStr.strip (PyStr.join (PyStr.lit " ") (map span_text (spans ln)))
    ∧ ∃ sp, sp ∈ spans ln
            ∧ font_size b = span_size sp
            ∧ bold b = Z.testbit (span_flags sp) 1
            ∧ ∀ sp', sp' ∈ spans ln → (span_size sp' <= span_size sp)%Q.
Proof.
  intros Hb. rewrite (proj1 (extract_text_blocks_sorted_perm doc)) in Hb.
  apply gathered_blocks_elem in Hb as (i & p & Hp & Hb).
  apply page_text_blocks_elem in Hb as (_ & _ & -> & rb & ls & ln & Hrest).
  exists p, rb, ls, ln.
  replace (Z.to_nat (Z.of_nat i + 1 - 1)) with i by lia.
  split; [done|exact Hrest].
Qed.

Lemma extract_text_blocks_wf_witness :
  text doc_uniform_first_block ≠ []
  ∧ trimmed (text doc_uniform_first_block)
  ∧ (1 ≤ page doc_uniform_first_block ≤ page_count doc_uniform)%Z.
Proof.
  apply (extract_text_blocks_wf doc_uniform doc_uniform_first_block).
  vm_compute. left.
Defined.

Lemma extract_text_blocks_line_witness :
  ∃ p rb ls ln,
    pages doc_uniform !! Z.to_nat (page doc_uniform_first_block - 1) = Some p
    ∧ rb ∈ text_dict_blocks p ∧ lines rb = Some ls ∧ ln ∈ ls
    ∧ bbox doc_uniform_first_block = line_bbox ln
    ∧ text doc_uniform_first_block
      = PyStr.strip (PyStr.join (PyStr.lit " ") (map span_text (spans ln)))
    ∧ ∃ sp, sp ∈ spans ln
            ∧ font_size doc_uniform_first_block = span_size sp
            ∧ bold doc_uniform_first_block = Z.testbit (span_flags sp) 1
            ∧ ∀ sp', sp' ∈ spans ln → (span_size sp' <= span_size sp)%Q.
Proof.
  apply (extract_text_blocks_line doc_uniform doc_uniform_first_block).
  vm_compute. left.
Defined.

(** ** cluster_font_sizes: the mode and the maximum *)

Lemma Counter_snoc (xs : list Z) (x : Z) :
  Counter (xs ++ [x]) = counter_add x (Counter xs).
Proof. unfold Counter. by rewrite foldl_app. Qed.

Lemma counter_add_cases (x : Z) (freq : list (Z * nat)) :
  (∃ f1 n f2, freq = (f1 ++ (x, n) :: f2) ∧ (x ∉ map fst f1)
              ∧ counter_add x freq = f1 ++ (x, S n) :: f2)
  ∨ ((x ∉ map fst freq) ∧ counter_add x freq = freq ++ [(x, 1%nat)]).
Proof.
  induction freq as [|[k n] freq IH]; cbn.
  - right. split; [by intros ?%elem_of_nil|done].
  - destruct (x =? k)%Z eqn:Hxk.
    + apply Z.eqb_eq in Hxk as <-. left. exists [], n, freq.
      split; [done|]. split; [by intros ?%elem_of_nil|done].
    + apply Z.eqb_neq in Hxk.
      destruct IH as [(f1 & m & f2 & -> & Hf1 & ->)|[Hnot ->]].
      * left. exists ((k, n) :: f1), m, f2. split; [done|]. split; [|done].
        cbn. intros [?|?]%elem_of_cons; [done|by apply Hf1].
      * right. split; [|done].
        intros [?|?]%elem_of_cons; [done|by apply Hnot].
Qed.

Lemma count_occ_snoc (xs : list Z) (x k : Z) :
  count_occ Z.eq_dec (xs ++ [x]) k
  = (count_occ Z.eq_dec xs k + if decide (x = k) then 1 else 0)%nat.
Proof.
  rewrite count_occ_app. cbn.
  destruct (Z.eq_dec x k), (decide (x = k)); done.
Qed.

Lemma Counter_counts (xs : list Z) : counts_of xs (Counter xs).
Proof.
  induction xs as [|x xs IH] using rev_ind.
  - unfold Counter, counts_of. cbn. split; [constructor|].
    split; [by intros k n ?%elem_of_nil|]. split; [done|].
    intros k1 k k2 Heq. by destruct k1.
  - rewrite Counter_snoc. destruct IH as (Hnodup & Hcount & Hkeys & Horder).
    unfold counts_of.
    destruct (counter_add_cases x (Counter xs))
      as [(f1 & n & f2 & Hfreq & Hf1 & ->)|[Hnew ->]].
    + rewrite Hfreq in *.
      assert (Hmap : map fst (f1 ++ (x, S n) :: f2) = map fst (f1 ++ (x, n) :: f2))
        by (by rewrite !map_app).
      rewrite Hmap. split; [done|]. split; [|split].
      * intros k m Hin. rewrite count_occ_snoc, elem_of_app.
        apply elem_of_app in Hin as [Hin|[Hin|Hin]%elem_of_cons].
        -- destruct (Hcount k m) as [-> Hk]; [apply elem_of_app; by left|].
           rewrite decide_False; [split; [lia|by left]|].
           intros <-. apply Hf1, list_elem_of_In, in_map_iff.
           exists (x, count_occ Z.eq_dec xs x). by rewrite <- list_elem_of_In.
        -- injection Hin as -> ->.
           destruct (Hcount x n) as [-> Hk]; [apply elem_of_app; right; by left|].
           rewrite decide_True by done. split; [lia|by left].
        -- destruct (Hcount k m) as [-> Hk];
             [apply elem_of_app; right; by right|].
           rewrite decide_False; [split; [lia|by left]|].
           intros <-. rewrite map_app in Hnodup.
           apply NoDup_app in Hnodup as (_ & _ & Hnd).
           cbn in Hnd. apply NoDup_cons in Hnd as [Hnd _]. apply Hnd.
           apply list_elem_of_In, in_map_iff.
           exists (x, count_occ Z.eq_dec xs x). by rewrite <- list_elem_of_In.
      * intros k [Hk|Hk%list_elem_of_singleton]%elem_of_app; [by apply Hkeys|].
        subst k. rewrite map_app. apply elem_of_app. right. by left.
      * intros k1 k k2 Heq.
        destruct (Horder k1 k k2 Heq) as (pre & post & -> & Hpre & Hsub).
        exists pre, (post ++ [x]). by rewrite <- app_assoc.
    + split; [|split; [|split]].
      * rewrite map_app. apply NoDup_app. split; [done|].
        split; [|apply NoDup_singleton].
        intros k Hk ->%list_elem_of_singleton. done.
      * intros k m [Hin|Hin%list_elem_of_singleton]%elem_of_app.
        -- destruct (Hcount k m Hin) as [-> Hk].
           rewrite count_occ_snoc, elem_of_app.
           rewrite decide_False; [split; [lia|by left]|].
           intros <-. by apply Hnew, Hkeys.
        -- injection Hin as -> ->. rewrite count_occ_snoc, decide_True by done.
           rewrite elem_of_app. split; [|right; by left].
           destruct (count_occ Z.eq_dec xs x) eqn:Hc; [done|].
           exfalso. apply Hnew, Hkeys, list_elem_of_In.
           apply (count_occ_In Z.eq_dec). lia.
      * intros k [Hk|Hk%list_elem_of_singleton]%elem_of_app.
        -- rewrite map_app. apply elem_of_app. left. by apply Hkeys.
        -- subst k. rewrite map_app. apply elem_of_app. right. by left.
      * rewrite map_app. cbn. intros k1 k k2 Heq.
        destruct k2 as [|k' k2 _] using rev_ind.
        -- apply app_inj_tail in Heq as [Hk1 ->].
           exists xs, []. split; [done|].
           split; [|intros j Hj; rewrite <- Hk1; by apply Hkeys].
           intros Hx. by apply Hnew, Hkeys.
        -- rewrite app_comm_cons, app_assoc in Heq.
           apply app_inj_tail in Heq as [Heq <-].
           destruct (Horder k1 k k2 Heq) as (pre & post & -> & Hpre & Hsub).
           exists pre, (post ++ [x]). by rewrite <- app_assoc.
Qed.

Lemma foldl_max_spec (h : Z) (hs : list Z) :
  foldl Z.max h hs ∈ h :: hs ∧ ∀ y, y ∈ h :: hs → (y ≤ foldl Z.max h hs)%Z.
Proof.
  revert h. induction hs as [|z hs IH]; intros h; cbn [foldl].
  - split; [by left|]. intros y ->%list_elem_of_singleton. lia.
  - destruct (IH (Z.max h z)) as [Hin Hmax]. split.
    + apply elem_of_cons in Hin as [Heq|Hin]; [|by do 2 right].
      rewrite Heq. destruct (Z.max_spec h z) as [[_ ->]|[_ ->]]; [right|]; by left.
    + intros y [->|[->|Hy]%elem_of_cons]%elem_of_cons.
      * specialize (Hmax (Z.max h z)). pose proof (Hmax ltac:(by left)). lia.
      * specialize (Hmax (Z.max h z)). pose proof (Hmax ltac:(by left)). lia.
      * apply Hmax. by right.
Qed.

Lemma cluster_font_sizes_none (blocks : list block) :
  rounded_sizes blocks = [] → cluster_font_sizes blocks = (0, 0)%Z.
Proof.
  unfold rounded_sizes, cluster_font_sizes.
  by destruct (List.filter _ _).
Qed.

Lemma cluster_font_sizes_some (blocks : list block) :
  rounded_sizes blocks ≠ [] →
  cluster_font_sizes blocks
  = (most_common_key (Counter (rounded_sizes blocks)),
     match List.filter
             (λ size, (most_common_key (Counter (rounded_sizes blocks)) <? size)%Z)
             (map fst (Counter (rounded_sizes blocks))) with
     | [] => most_common_key (Counter (rounded_sizes blocks))
     | h :: hs => foldl Z.max h hs
     end).
Proof.
  unfold rounded_sizes, cluster_font_sizes.
  by destruct (List.filter _ (map font_size blocks)).
Qed.

Lemma Counter_nonempty (xs : list Z) : xs ≠ [] → Counter xs ≠ [].
Proof.
  intros Hxs Hnil. destruct xs as [|x xs]; [done|].
  destruct (Counter_counts (x :: xs)) as (_ & _ & Hkeys & _).
  specialize (Hkeys x ltac:(by left)). rewrite Hnil in Hkeys.
  by apply elem_of_nil in Hkeys.
Qed.

Lemma elem_of_map_fst (freq : list (Z * nat)) (k : Z) :
  k ∈ map fst freq ↔ ∃ n, (k, n) ∈ freq.
Proof.
  rewrite list_elem_of_In, in_map_iff. split.
  - intros ([k' n] & <- & Hin). exists n. by apply list_elem_of_In.
  - intros (n & Hin). exists (k, n). by rewrite <- list_elem_of_In.
Qed.

(** The body size among the rounded sizes [rs]: no value is more frequent,
    and the values before its first occurrence are less frequent. *)
Lemma most_common_key_mode (rs : list Z) :
  rs ≠ [] →
  (∀ k, count_occ Z.eq_dec rs k
        ≤ count_occ Z.eq_dec rs (most_common_key (Counter rs)))
  ∧ ∃ pre post,
      rs = pre ++ most_common_key (Counter rs) :: post
      ∧ ∀ j, j ∈ pre →
             count_occ Z.eq_dec rs j
             < count_occ Z.eq_dec rs (most_common_key (Counter rs)).
Proof.
  intros Hrs.
  destruct (Counter_counts rs) as (Hnodup & Hcount & Hkeys & Horder).
  pose proof (Counter_nonempty rs Hrs) as Hfreq.
  destruct (Counter rs) as [|kv rest] eqn:Hc; [done|]. clear Hfreq.
  unfold most_common_key.
  set (ltb := λ a b : Z * nat, (a.2 <? b.2)%nat).
  destruct (max_by_first ltb) with (x := kv) (xs := rest)
    as (l1 & l2 & Hsplit & Hl1 & Hl2).
  { unfold ltb. intros a b c ?%Nat.ltb_lt ?%Nat.ltb_lt. apply Nat.ltb_lt. lia. }
  { unfold ltb. intros a b c ?%Nat.ltb_ge ?%Nat.ltb_lt. apply Nat.ltb_lt. lia. }
  destruct (PyNum.max_by ltb kv rest) as [body n] eqn:Hbest. cbn [fst].
  rewrite Hsplit in *.
  assert (Hn : n = count_occ Z.eq_dec rs body).
  { apply Hcount. apply elem_of_app. right. by left. }
  split.
  - intros k. destruct (decide (k ∈ rs)) as [Hk|Hk].
    + apply Hkeys, elem_of_map_fst in Hk as (m & Hin).
      destruct (Hcount k m Hin) as [<- _]. rewrite <- Hn.
      apply elem_of_app in Hin as [Hin|[Hin|Hin]%elem_of_cons].
      * apply Hl1 in Hin. unfold ltb in Hin. apply Nat.ltb_lt in Hin. cbn in Hin. lia.
      * injection Hin as -> ->. lia.
      * apply Hl2 in Hin. unfold ltb in Hin. apply Nat.ltb_ge in Hin. cbn in Hin. lia.
    + rewrite list_elem_of_In in Hk.
      apply (count_occ_not_In Z.eq_dec) in Hk. lia.
  - destruct (Horder (map fst l1) body (map fst l2)) as (pre & post & Heq & _ & Hsub).
    { by rewrite map_app. }
    exists pre, post. split; [done|].
    intros j Hj. apply Hsub, elem_of_map_fst in Hj as (m & Hin).
    destruct (Hcount j m) as [<- _]; [apply elem_of_app; by left|].
    apply Hl1 in Hin. unfold ltb in Hin. apply Nat.ltb_lt in Hin. cbn in Hin. lia.
Qed.

Lemma most_common_key_in (rs : list Z) : rs ≠ [] → most_common_key (Counter rs) ∈ rs.
Proof.
  intros Hrs. destruct (most_common_key_mode rs Hrs) as (_ & pre & post & Heq & _).
  rewrite Heq at 2. apply elem_of_app. right. by left.
Qed.

(** The primary heading size among the rounded sizes: the largest. *)
Lemma primary_size_max (rs : list Z) :
  rs ≠ [] →
  let body := most_common_key (Counter rs) in
  let primary :=
    match List.filter (λ size, (body <? size)%Z) (map fst (Counter rs)) with
    | [] => body
    | h :: hs => foldl Z.max h hs
    end in
  primary ∈ rs ∧ ∀ k, k ∈ rs → (k ≤ primary)%Z.
Proof.
  intros Hrs body primary.
  destruct (Counter_counts rs) as (_ & Hcount & Hkeys & _).
  pose proof (most_common_key_in rs Hrs) as Hbody. fold body in Hbody.
  assert (Hfilter : ∀ k, k ∈ List.filter (λ size, (body <? size)%Z) (map fst (Counter rs))
                         ↔ k ∈ rs ∧ (body < k)%Z).
  { intros k. rewrite list_elem_of_In, filter_In, <- list_elem_of_In, Z.ltb_lt.
    split; intros [Hk ?]; (split; [|done]); [|by apply Hkeys].
    apply elem_of_map_fst in Hk as (n & Hin). by destruct (Hcount k n Hin). }
  subst primary.
  destruct (List.filter _ _) as [|h hs].
  - split; [done|]. intros k Hk.
    destruct (Z.le_gt_cases k body) as [|Hgt]; [done|].
    destruct (Hfilter k) as [_ Hin]. specialize (Hin (conj Hk Hgt)).
    by apply elem_of_nil in Hin.
  - destruct (foldl_max_spec h hs) as [Hin Hmax]. split.
    + by apply Hfilter in Hin as [? _].
    + intros k Hk. destruct (Z.le_gt_cases k body) as [Hle|Hgt].
      * assert (body < h)%Z by (apply Hfilter; by left).
        specialize (Hmax h ltac:(by left)). lia.
      * by apply Hmax, Hfilter.
Qed.

(** X7: when some block has a positive font size, the body size is a most
    frequent one of the rounded positive sizes, and among several most
    frequent ones the first in the order of the blocks: every rounded size
    before its first occurrence is strictly less frequent.  When no block
    has a positive font size, both sizes are 0. *)
Theorem body_size_is_first_mode (blocks : list block) :
  (rounded_sizes blocks = [] → cluster_font_sizes blocks = (0, 0)%Z)
  ∧ (rounded_sizes blocks ≠ [] →
     (∀ k, count_occ Z.eq_dec (rounded_sizes blocks) k
           ≤ count_occ Z.eq_dec (rounded_sizes blocks) (cluster_font_sizes blocks).1)
     ∧ ∃ pre post,
         rounded_sizes blocks = pre ++ (cluster_font_sizes blocks).1 :: post
         ∧ ∀ j, j ∈ pre →
                count_occ Z.eq_dec (rounded_sizes blocks) j
                < count_occ Z.eq_dec (rounded_sizes blocks) (cluster_font_sizes blocks).1).
Proof.
  split; [apply cluster_font_sizes_none|].
  intros Hrs. rewrite (cluster_font_sizes_some blocks Hrs). cbn [fst].
  by apply most_common_key_mode.
Qed.

(** X8: when some block has a positive font size, the primary heading
    size is the largest of the rounded positive sizes, and the body size is
    not larger than it. *)
Theorem primary_size_is_max (blocks : list block) :
  rounded_sizes blocks ≠ [] →
  (cluster_font_sizes blocks).2 ∈ rounded_sizes blocks
  ∧ (∀ k, k ∈ rounded_sizes blocks → (k ≤ (cluster_font_sizes blocks).2)%Z)
  ∧ ((cluster_font_sizes blocks).1 ≤ (cluster_font_sizes blocks).2)%Z.
Proof.
  intros Hrs. rewrite (cluster_font_sizes_some blocks Hrs). cbn [fst snd].
  destruct (primary_size_max _ Hrs) as [Hin Hmax].
  split; [done|]. split; [done|].
  by apply Hmax, most_common_key_in.
Qed.

Section uniform.
Context `{PyLib}.

(** X9: when all positive font sizes round to the same integer (or no
    font size is positive), [classify_headings] returns the empty
    outline. *)
Theorem uniform_sizes_empty_outline (blocks : list block) (ttl : str)
    (lang : lang_settings) (r : Z) :
  (∀ b, b ∈ blocks → (0 < font_size b)%Q → PyNum.round (font_size b) = r) →
  classify_headings blocks ttl lang = [].
Proof.
  intros Huniform.
  assert (Hdeg : degenerate_typography blocks).
  { destruct (decide (rounded_sizes blocks = [])) as [Hnil|Hrs].
    - left. by rewrite cluster_font_sizes_none.
    - right. rewrite (cluster_font_sizes_some blocks Hrs). cbn [fst snd].
      assert (Hall : ∀ k, k ∈ rounded_sizes blocks → k = r).
      { intros k Hk%list_elem_of_In. unfold rounded_sizes in Hk.
        apply in_map_iff in Hk as (q & <- & [Hq Hpos]%filter_In).
        apply in_map_iff in Hq as (b & <- & Hb%list_elem_of_In).
        apply Huniform; [done|]. by apply Qltb_lt. }
      destruct (primary_size_max _ Hrs) as [Hin _].
      apply Hall in Hin. cbn in Hin. rewrite Hin.
      by rewrite (Hall _ (most_common_key_in _ Hrs)). }
  apply degenerate_typography_test in Hdeg.
  unfold classify_headings.
  destruct (cluster_font_sizes blocks) as [body primary]. cbn in Hdeg.
  by rewrite Hdeg.
Qed.

End uniform.

Lemma body_size_is_first_mode_witness :
  (∀ k, count_occ Z.eq_dec (rounded_sizes blocks_with_header) k
        ≤ count_occ Z.eq_dec (rounded_sizes blocks_with_header)
            (cluster_font_sizes blocks_with_header).1)
  ∧ ∃ pre post,
      rounded_sizes blocks_with_header
      = pre ++ (cluster_font_sizes blocks_with_header).1 :: post
      ∧ ∀ j, j ∈ pre →
             count_occ Z.eq_dec (rounded_sizes blocks_with_header) j
             < count_occ Z.eq_dec (rounded_sizes blocks_with_header)
                 (cluster_font_sizes blocks_with_header).1.
Proof.
  apply (proj2 (body_size_is_first_mode blocks_with_header)).
  vm_compute. discriminate.
Defined.

Lemma primary_size_is_max_witness :
  (cluster_font_sizes blocks_with_header).2 ∈ rounded_sizes blocks_with_header
  ∧ (∀ k, k ∈ rounded_sizes blocks_with_header
          → (k ≤ (cluster_font_sizes blocks_with_header).2)%Z)
  ∧ ((cluster_font_sizes blocks_with_header).1
     ≤ (cluster_font_sizes blocks_with_header).2)%Z.
Proof.
  apply (primary_size_is_max blocks_with_header).
  vm_compute. discriminate.
Defined.

Lemma uniform_sizes_empty_outline_witness :
  classify_headings (H:=example_lib)
    [body_line 1 100; body_line 1 120; body_line 2 100] [] no_numbering = [].
Proof.
  apply (uniform_sizes_empty_outline (H:=example_lib) _ _ _ 10).
  intros b Hb _. vm_compute in Hb.
  repeat (apply elem_of_cons in Hb as [->|Hb]; [reflexivity|]).
  by apply elem_of_nil in Hb.
Defined.

(** ** detect_title: when it raises and what it returns *)

Lemma title_score_cases (w h : Q) (b : block) :
  title_score w h b
  = if Qeq_bool (w / 2) 0 then Raise ZeroDivisionError
    else Ok (title_score_value w h b).
Proof.
  unfold title_score, title_score_value, pydiv.
  by destruct (Qeq_bool (w / 2) 0).
Qed.

Lemma title_loop_raised (w h : Q) (e : exn) (blocks : list block) :
  foldl (title_step w h) (Raise e) blocks = Raise e.
Proof. induction blocks as [|b blocks IH]; [done|]. exact IH. Qed.

Lemma title_eligible_skip (b : block) :
  negb (page b =? 1)%Z || (length (text b) <? TITLE_MIN_CHARS)%nat
  = negb (title_eligible b).
Proof.
  unfold title_eligible. rewrite negb_andb. f_equal.
  apply Nat.ltb_antisym.
Qed.

Lemma title_loop (w h : Q) (blocks : list block) (acc : list title_candidate) :
  foldl (title_step w h) (Ok acc) blocks
  = if Qeq_bool (w / 2) 0 && existsb title_eligible blocks
    then Raise ZeroDivisionError
    else Ok (acc ++ map (λ b, {| tc_score := title_score_value w h b;
                                 tc_text := text b |})
                      (List.filter title_eligible blocks)).
Proof.
  revert acc. induction blocks as [|b blocks IH]; intros acc.
  - cbn. by rewrite andb_false_r, app_nil_r.
  - cbn [foldl existsb List.filter].
    unfold title_step at 2. cbn [mbind result_bind].
    rewrite title_eligible_skip.
    destruct (title_eligible b); cbn [negb orb].
    + rewrite title_score_cases.
      destruct (Qeq_bool (w / 2) 0); cbn [andb mbind result_bind mret result_ret].
      * apply title_loop_raised.
      * rewrite IH. cbn [andb map]. by rewrite <- app_assoc.
    + cbn [mret result_ret]. apply IH.
Qed.

Lemma half_zero (w : Q) : Qeq_bool (w / 2) 0 = true ↔ (w == 0)%Q.
Proof.
  rewrite Qeq_bool_iff. split; intros Hw.
  - assert (Heq : (w == w / 2 * 2)%Q) by (field; done).
    rewrite Heq, Hw. reflexivity.
  - rewrite Hw. reflexivity.
Qed.

Lemma existsb_eligible (blocks : list block) :
  existsb title_eligible blocks = true
  ↔ ∃ b, b ∈ blocks ∧ page b = 1%Z ∧ 10 ≤ length (text b).
Proof.
  rewrite existsb_exists. unfold title_eligible, TITLE_MIN_CHARS.
  setoid_rewrite andb_true_iff. setoid_rewrite Z.eqb_eq.
  setoid_rewrite Nat.leb_le. by setoid_rewrite list_elem_of_In.
Qed.

Lemma split_filter_map {A B} (f : A → B) (P : A → bool) (l : list A)
    (l1 l2 : list B) (c : B) :
  map f (List.filter P l) = l1 ++ c :: l2 →
  ∃ pre b post,
    l = pre ++ b :: post ∧ P b = true ∧ c = f b
    ∧ l1 = map f (List.filter P pre) ∧ l2 = map f (List.filter P post).
Proof.
  revert l1. induction l as [|a l IH]; intros l1 Heq.
  - by destruct l1.
  - cbn [List.filter] in Heq. destruct (P a) eqn:Ha.
    + destruct l1 as [|d l1]; cbn in Heq; injection Heq as <- Heq.
      * exists [], a, l. by rewrite Heq.
      * destruct (IH l1 Heq) as (pre & b & post & -> & Hb & -> & -> & ->).
        exists (a :: pre), b, post. cbn [List.filter]. by rewrite Ha.
    + destruct (IH l1 Heq) as (pre & b & post & -> & Hb & -> & -> & ->).
      exists (a :: pre), b, post. cbn [List.filter]. by rewrite Ha.
Qed.

Section title.
Context `{PyLib}.

(** The outcome of [detect_title] by cases. *)
Lemma detect_title_outcome (doc : document) (blocks : list block) :
  detect_title doc blocks
  = match head (pages doc) with
    | None => Ok []
    | Some p0 =>
        if Qeq_bool (rect_width p0 / 2) 0 && existsb title_eligible blocks
        then Raise ZeroDivisionError
        else Ok match map (λ b, {| tc_score := title_score_value (rect_width p0)
                                                 (rect_height p0) b;
                                   tc_text := text b |})
                          (List.filter title_eligible blocks) with
                | [] => []
                | c :: cs =>
                    normalize_text
                      (tc_text (PyNum.max_by
                                  (λ a b, PyNum.Qltb (tc_score a) (tc_score b)) c cs))
                end
    end.
Proof.
  unfold detect_title, page_count.
  destruct (pages doc) as [|p0 rest]; [done|]. cbn [head].
  replace (0 <? Z.of_nat (length (p0 :: rest)))%Z with true
    by (symmetry; apply Z.ltb_lt; cbn; lia).
  cbn [negb]. rewrite title_loop. cbn [app].
  destruct (_ && _); [done|]. cbn [mbind result_bind].
  by destruct (map _ _).
Qed.

(** X10: [detect_title] raises exactly when the first page has width 0
    and some block is on page 1 with at least 10 characters; what it
    raises is [ZeroDivisionError]. *)
Theorem detect_title_raises (doc : document) (blocks : list block) (e : exn) :
  detect_title doc blocks = Raise e
  ↔ e = ZeroDivisionError
    ∧ ∃ p0, head (pages doc) = Some p0
            ∧ (rect_width p0 == 0)%Q
            ∧ ∃ b, b ∈ blocks ∧ page b = 1%Z ∧ 10 ≤ length (text b).
Proof.
  rewrite detect_title_outcome. setoid_rewrite <- existsb_eligible.
  destruct (head (pages doc)) as [p0|].
  - destruct (Qeq_bool (rect_width p0 / 2) 0) eqn:Hw; cbn [andb].
    + apply half_zero in Hw.
      destruct (existsb title_eligible blocks) eqn:Hex.
      * split; [intros [= <-]; eauto|by intros [-> _]].
      * split; [done|by intros (_ & p & [= <-] & _ & ?)].
    + split; [done|].
      intros (_ & p & [= <-] & Hzero%half_zero & _). congruence.
  - split; [done|]. by intros (_ & p0 & ? & _).
Qed.

(** X11: when the half of the width of the first page, by which the
    loop divides, is not 0, [detect_title] returns: the empty title when
    no block is on page 1 with at least 10 characters, and otherwise the
    normalized text of one of the blocks that are. *)
Theorem detect_title_from_page_1 (doc : document) (blocks : list block) (p0 : fitz_page) :
  head (pages doc) = Some p0 →
  ¬ (rect_width p0 / 2 == 0)%Q →
  (List.filter title_eligible blocks = [] ∧ detect_title doc blocks = Ok [])
  ∨ ∃ b,
      b ∈ blocks
      ∧ title_eligible b = true
      ∧ detect_title doc blocks = Ok (normalize_text (text b)).
Proof.
  intros Hp0 Hwidth. unfold detect_title, page_count.
  destruct (pages doc) as [|p rest]; [done|]. injection Hp0 as ->.
  replace (0 <? Z.of_nat (length (p0 :: rest)))%Z with true
    by (symmetry; apply Z.ltb_lt; cbn; lia).
  cbn [negb]. rewrite title_loop. cbn [app].
  destruct (Qeq_bool (rect_width p0 / 2) 0) eqn:Hw;
    [by apply Qeq_bool_iff in Hw|].
  cbn [andb mbind result_bind].
  destruct (map _ (List.filter title_eligible blocks)) as [|c cs] eqn:Hcands.
  - left. split; [|done]. by destruct (List.filter title_eligible blocks).
  - right.
    set (ltb := λ a b : title_candidate, PyNum.Qltb (tc_score a) (tc_score b)).
    destruct (max_by_first ltb) with (x := c) (xs := cs)
      as (l1 & l2 & Hsplit & _ & _).
    { unfold ltb. intros a b d Hab%Qltb_lt Hbd%Qltb_lt. apply Qltb_lt. lraQ. }
    { unfold ltb. intros a b d Hab%Qltb_false Had%Qltb_lt. apply Qltb_lt. lraQ. }
    rewrite Hsplit in Hcands.
    apply split_filter_map in Hcands as (pre & b & post & -> & Hb & Hbest & -> & ->).
    exists b. split; [set_solver|]. split; [done|].
    fold ltb. by rewrite Hbest.
Qed.

End title.

Lemma detect_title_raises_witness :
  detect_title (H:=example_lib) doc_zero_width [zero_width_block]
  = Raise ZeroDivisionError.
Proof.
  apply (proj2 (detect_title_raises (H:=example_lib) doc_zero_width
                  [zero_width_block] ZeroDivisionError)).
  split; [reflexivity|].
  exists {| rect_width := 0; rect_height := 792;
            text_dict_blocks := text_dict_blocks
                                  (default {| rect_width := 0; rect_height := 0;
                                              text_dict_blocks := [] |}
                                     (head (pages doc_zero_width))) |}.
  split; [reflexivity|]. split; [reflexivity|].
  exists zero_width_block. split; [left|]. split; [reflexivity|].
  vm_compute. lia.
Defined.

Lemma detect_title_from_page_1_witness :
  (List.filter title_eligible (extract_text_blocks doc_uniform) = []
   ∧ detect_title (H:=example_lib) doc_uniform
       (extract_text_blocks doc_uniform) = Ok [])
  ∨ ∃ b,
      b ∈ extract_text_blocks doc_uniform
      ∧ title_eligible b = true
      ∧ detect_title (H:=example_lib) doc_uniform
          (extract_text_blocks doc_uniform)
        = Ok (normalize_text (H:=example_lib) (text b)).
Proof.
  apply (detect_title_from_page_1 (H:=example_lib) doc_uniform
           (extract_text_blocks doc_uniform)
           (default {| rect_width := 0; rect_height := 0; text_dict_blocks := [] |}
              (head (pages doc_uniform)))).
  - reflexivity.
  - vm_compute. discriminate.
Defined.

(** ** extract_outline: its outcomes *)

Section outcomes.
Context `{PyLib}.

Lemma extract_outline_result (doc : document) (lang : lang_settings) :
  (extract_outline (Ok doc) lang).2
  = match detect_title doc (extract_text_blocks doc) with
    | Raise e => Raise e
    | Ok ttl =>
        match get_toc doc with
        | _ :: _ => Ok (Some {| title := ttl;
                                outline := format_embedded_toc (get_toc doc) |})
        | [] =>
            match extract_text_blocks doc with
            | [] => Ok None
            | _ => Ok (Some {| title := ttl;
                               outline := classify_headings (extract_text_blocks doc)
                                            ttl lang |})
            end
        end
    end.
Proof.
  unfold extract_outline, call, print, mbind, traced_bind. cbn.
  destruct (detect_title _ _) as [ttl|e]; [|done]. cbn.
  destruct (get_toc doc); cbn; [|done].
  by destruct (extract_text_blocks doc).
Qed.

(** X12: a document that opens yields no artifact (and no exception)
    exactly when it has neither an embedded outline nor a line of text; a
    document that does not open yields none, and nothing but the message
    is left in the trace. *)
Theorem extract_outline_none (doc : document) (lang : lang_settings) :
  ((extract_outline (Ok doc) lang).2 = Ok None
   ↔ get_toc doc = [] ∧ extract_text_blocks doc = [])
  ∧ ∀ e, extract_outline (Raise e) lang = ([Print MsgOpenFailed], Ok None).
Proof.
  split; [|done]. rewrite extract_outline_result. split.
  - destruct (detect_title _ _); [|done].
    destruct (get_toc doc); [|done].
    by destruct (extract_text_blocks doc).
  - intros [-> Hblocks]. rewrite detect_title_outcome, Hblocks. cbn.
    destruct (head (pages doc)); [|done]. by rewrite andb_false_r.
Qed.

(** X13: when the first page has width 0 and some line of page 1 has at
    least 10 characters, [extract_outline] raises [ZeroDivisionError],
    also for a document with an embedded outline: the title is computed
    before the embedded outline is looked at. *)
Theorem extract_outline_raises (doc : document) (lang : lang_settings)
    (p0 : fitz_page) (b : block) :
  head (pages doc) = Some p0 →
  (rect_width p0 == 0)%Q →
  b ∈ extract_text_blocks doc →
  page b = 1%Z →
  10 ≤ length (text b) →
  (extract_outline (Ok doc) lang).2 = Raise ZeroDivisionError.
Proof.
  intros Hp0 Hwidth Hb Hpage Hlen.
  rewrite extract_outline_result, detect_title_outcome, Hp0.
  assert (Hw : Qeq_bool (rect_width p0 / 2) 0 = true).
  { apply Qeq_bool_iff. rewrite Hwidth. reflexivity. }
  assert (Hex : existsb title_eligible (extract_text_blocks doc) = true).
  { apply existsb_eligible. eauto. }
  by rewrite Hw, Hex.
Qed.

End outcomes.

Lemma extract_outline_raises_witness :
  get_toc doc_zero_width ≠ []
  ∧ (extract_outline (H:=example_lib) (Ok doc_zero_width) no_numbering).2
    = Raise ZeroDivisionError.
Proof.
  split; [discriminate|].
  apply (extract_outline_raises (H:=example_lib) doc_zero_width no_numbering
           (default {| rect_width := 1; rect_height := 1; text_dict_blocks := [] |}
              (head (pages doc_zero_width)))
           zero_width_block).
  - reflexivity.
  - reflexivity.
  - vm_compute. left.
  - reflexivity.
  - vm_compute. lia.
Defined.

(** ** classify_headings: candidates, order, levels *)

Lemma sublist_strongly_sorted {A} (R : A → A → Prop) (l k : list A) :
  l `sublist_of` k → StronglySorted R k → StronglySorted R l.
Proof.
  induction 1 as [|x l k Hsub IH|x l k Hsub IH]; intros Hk; [done| |].
  - apply StronglySorted_inv in Hk as [Hk Hx].
    constructor; [by apply IH|].
    rewrite Forall_forall in Hx |- *. intros y Hy. apply Hx.
    by eapply elem_of_sublist.
  - apply StronglySorted_inv in Hk as [Hk _]. by apply IH.
Qed.

Lemma list_filter_sublist {A} (P : A → bool) (l : list A) :
  List.filter P l `sublist_of` l.
Proof.
  induction l as [|x l IH]; [constructor|]. cbn.
  destruct (P x); by constructor.
Qed.

Lemma map_sublist {A B} (f : A → B) (l k : list A) :
  l `sublist_of` k → map f l `sublist_of` map f k.
Proof. induction 1; cbn; by constructor. Qed.

Section candidates.
Context `{PyLib}.

Lemma loop_candidate_blocks ttl body primary repeated (blocks : list block) :
  map cand_block (scored_candidates (score_loop ttl body primary repeated blocks))
  = List.filter (λ b, negb (excluded body ttl repeated b)) blocks.
Proof.
  induction blocks as [|b blocks IH] using rev_ind; [done|].
  rewrite loop_snoc, step_candidates, map_app, IH, List.filter_app.
  f_equal. cbn. by destruct (excluded body ttl repeated b).
Qed.

Lemma candidates_of_blocks (blocks : list block) (ttl : str) :
  map cand_block (candidates_of blocks ttl)
  = if ((cluster_font_sizes blocks).1 =? 0)%Z
       || ((cluster_font_sizes blocks).2 <=? (cluster_font_sizes blocks).1)%Z
    then []
    else List.filter
           (λ b, negb (excluded (cluster_font_sizes blocks).1 ttl
                         (identify_repeated_elements blocks 3) b))
           blocks.
Proof.
  unfold candidates_of.
  destruct (cluster_font_sizes blocks) as [body primary]. cbn [fst snd].
  destruct (_ || _); [done|]. apply loop_candidate_blocks.
Qed.


(** X15: the pages of the outline are, in the same order, pages of lines
    of the input; the outline has at most as many entries as the input
    has lines. *)
Theorem outline_follows_the_lines (blocks : list block) (ttl : str)
    (lang : lang_settings) :
  map entry_page (classify_headings blocks ttl lang) `sublist_of` map page blocks
  ∧ length (classify_headings blocks ttl lang) ≤ length blocks.
Proof.
  assert (Hsub : map entry_page (classify_headings blocks ttl lang)
                 `sublist_of` map page blocks).
  { rewrite classify_headings_candidates, classify_candidates_entries.
    rewrite List.map_map. cbn [entry_of entry_page].
    rewrite <- (List.map_map cand_block page).
    apply map_sublist. etrans; [apply map_sublist, list_filter_sublist|].
    rewrite candidates_of_blocks. destruct (_ || _); [apply sublist_nil_l|].
    apply list_filter_sublist. }
  split; [done|].
  apply sublist_length in Hsub. by rewrite !List.length_map in Hsub.
Qed.

(** X16: in the artifact of a document without an embedded outline, the
    pages of the entries never decrease. *)
Theorem heuristic_outline_pages_ascend (doc : document) (lang : lang_settings)
    (art : artifact) :
  get_toc doc = [] →
  (extract_outline (Ok doc) lang).2 = Ok (Some art) →
  StronglySorted Z.le (map entry_page (outline art)).
Proof.
  intros Htoc. rewrite extract_outline_result, Htoc.
  destruct (detect_title _ _) as [ttl|]; [|done].
  destruct (extract_text_blocks doc) as [|b0 bs] eqn:Hblocks; [done|].
  intros [= <-]. cbn [outline]. rewrite <- Hblocks.
  apply sublist_strongly_sorted with (map page (extract_text_blocks doc)).
  - rewrite classify_headings_candidates, classify_candidates_entries.
    rewrite List.map_map. cbn [entry_of entry_page].
    rewrite <- (List.map_map cand_block page).
    apply map_sublist. etrans; [apply map_sublist, list_filter_sublist|].
    rewrite candidates_of_blocks. destruct (_ || _); [apply sublist_nil_l|].
    apply list_filter_sublist.
  - destruct (extract_text_blocks_sorted_perm doc) as [_ Hsorted].
    change (map page ?l) with (page <$> l).
    apply (StronglySorted_fmap _ key_le); [|done].
    intros x y [?|[? _]]; lia.
Qed.

End candidates.

(** ** The levels and the scores *)

(** X17: a candidate that scores at least as much as another one is not
    given a lower level: it is H1 when the other is, and the other is H3
    when it is. *)
Theorem levels_follow_scores (h1 h2 : R) (q1 q2 : Q) :
  (q1 <= q2)%Q →
  (heading_level h1 h2 q1 = PyStr.lit "H1" → heading_level h1 h2 q2 = PyStr.lit "H1")
  ∧ (heading_level h1 h2 q2 = PyStr.lit "H3" → heading_level h1 h2 q1 = PyStr.lit "H3").
Proof.
  intros Hle%Qreals.Qle_Rle. unfold heading_level.
  destruct (Rge_dec (Q2R q1) h1), (Rge_dec (Q2R q2) h1),
    (Rge_dec (Q2R q1) h2), (Rge_dec (Q2R q2) h2);
    split; intros Heq; try done; try discriminate Heq; exfalso; lraR.
Qed.

Lemma levels_follow_scores_witness : heading_level 50 30 70 = PyStr.lit "H1".
Proof.
  apply (proj1 (levels_follow_scores 50 30 60 70 ltac:(vm_compute; discriminate))).
  unfold heading_level.
  destruct (Rge_dec (Q2R 60) 50) as [|Hlt]; [reflexivity|].
  exfalso. apply Hlt. unfold Q2R. cbn. lraR.
Defined.

Section best_candidate.
Context `{PyLib}.

(** X18: among one or two candidates, a candidate that no other one
    outscores is classified H1. *)
Theorem best_of_few_is_h1 (lang : lang_settings) (cands : list candidate)
    (c : candidate) :
  length cands < 3 →
  c ∈ cands →
  (∀ c', c' ∈ cands → (score c' <= score c)%Q) →
  level (entry_of lang cands c) = PyStr.lit "H1".
Proof.
  intros Hfew Hc Hbest. cbn [entry_of level].
  unfold heading_level, h1_threshold, scores_of.
  rewrite List.length_map.
  apply Nat.ltb_lt in Hfew as Hfewb. rewrite Hfewb.
  destruct (Rge_dec _ _) as [|Hlt]; [done|]. exfalso. apply Hlt. clear Hlt.
  assert (Hall : ∀ c', c' ∈ cands → (Q2R (score c') <= Q2R (score c))%R).
  { intros c' Hc'. by apply Qreals.Qle_Rle, Hbest. }
  unfold np_mean, np_sum. rewrite List.length_map.
  destruct cands as [|a [|b [|d cands]]]; [by apply elem_of_nil in Hc| | |cbn in Hfew; lia].
  - pose proof (Hall a ltac:(by left)). cbn. lraR.
  - pose proof (Hall a ltac:(by left)).
    pose proof (Hall b ltac:(right; by left)). cbn. lraR.
Qed.

End best_candidate.

Lemma heuristic_outline_pages_ascend_witness :
  (extract_outline (H:=example_lib) (Ok doc_two_pages) no_numbering).2
  = Ok (Some two_pages_artifact)
  ∧ map entry_page (outline two_pages_artifact) = [1%Z; 2%Z]
  ∧ StronglySorted Z.le (map entry_page (outline two_pages_artifact)).
Proof.
  assert (Hrun : (extract_outline (H:=example_lib) (Ok doc_two_pages) no_numbering).2
                 = Ok (Some two_pages_artifact)).
  { rewrite (heuristic_run (H:=example_lib) doc_two_pages no_numbering []);
      [|reflexivity|vm_compute; discriminate|by vm_compute].
    rewrite classify_headings_exec_eq. by vm_compute. }
  split; [exact Hrun|]. split; [reflexivity|].
  apply (heuristic_outline_pages_ascend (H:=example_lib) doc_two_pages no_numbering
           two_pages_artifact).
  - reflexivity.
  - exact Hrun.
Defined.

Lemma best_of_few_is_h1_witness :
  level (entry_of (H:=example_lib) no_numbering
           [ {| cand_block := heading_after_body; score := 105 |} ]
           {| cand_block := heading_after_body; score := 105 |})
  = PyStr.lit "H1".
Proof.
  apply (best_of_few_is_h1 (H:=example_lib)).
  - vm_compute. lia.
  - left.
  - intros c' Hc'. apply list_elem_of_singleton in Hc' as ->.
    vm_compute. discriminate.
Defined.

(** ** format_embedded_toc: one entry for each item *)

(** X19: the reformatted embedded outline has one entry for each item, in
    the same order and with the same pages, whatever the titles are: no
    item is dropped, also when its title is empty or white space only; the
    texts of the entries neither begin nor end with white space. *)
Theorem format_embedded_toc_shape (toc : list toc_item) :
  length (format_embedded_toc toc) = length toc
  ∧ map entry_page (format_embedded_toc toc) = map snd toc
  ∧ Forall (λ e, trimmed (entry_text e)) (format_embedded_toc toc).
Proof.
  unfold format_embedded_toc. rewrite List.length_map, List.map_map.
  split; [done|]. split.
  - apply map_ext. by intros [[lvl ttl] pg].
  - apply Forall_forall. intros e He%list_elem_of_In.
    apply in_map_iff in He as ([[lvl ttl] pg] & <- & _). apply strip_trimmed.
Qed.

(** ** identify_repeated_elements: pages and growth *)

Lemma key_pages_subseteq (blocks : list block) (k : str * Z) :
  key_pages blocks k ⊆ list_to_set (map page blocks).
Proof.
  intros p (b & Hb & _ & <-)%elem_of_key_pages.
  apply elem_of_list_to_set, list_elem_of_In, in_map. by apply list_elem_of_In.
Qed.

(** X20: when the lines lie on fewer than [min_pages] distinct pages, no
    key is repeated; with the 3 of [classify_headings], a document of one
    or two pages has no boilerplate. *)
Theorem no_repeated_elements_on_few_pages (blocks : list block) (min_pages : nat) :
  size (list_to_set (map page blocks) : gset Z) < min_pages →
  identify_repeated_elements blocks min_pages = ∅.
Proof.
  intros Hfew. apply set_eq. intros k. rewrite elem_of_repeated.
  split; [|by intros ?%not_elem_of_empty].
  intros [_ Hsize]. exfalso.
  pose proof (subseteq_size _ _ (key_pages_subseteq blocks k)). lia.
Qed.

Lemma no_repeated_elements_on_few_pages_witness :
  identify_repeated_elements blocks_body_first 3 = ∅.
Proof.
  apply (no_repeated_elements_on_few_pages blocks_body_first 3).
  vm_compute. lia.
Defined.

(** X21: more lines and a smaller [min_pages] only add repeated keys. *)
Theorem repeated_elements_grow (blocks more : list block) (n m : nat) :
  m ≤ n →
  identify_repeated_elements blocks n
  ⊆ identify_repeated_elements (blocks ++ more) m.
Proof.
  intros Hmn k. rewrite !elem_of_repeated. intros [Hne Hsize].
  assert (Hsub : key_pages blocks k ⊆ key_pages (blocks ++ more) k).
  { intros p (b & Hb & Hk & Hp)%elem_of_key_pages. apply elem_of_key_pages.
    exists b. split; [|done]. apply elem_of_app. by left. }
  split.
  - intros Hempty. rewrite Hempty in Hsub.
    apply Hne. apply set_eq. intros p. split; [apply Hsub|by intros ?%not_elem_of_empty].
  - apply subseteq_size in Hsub. lia.
Qed.

Lemma repeated_elements_grow_witness :
  identify_repeated_elements blocks_with_header 3
  ⊆ identify_repeated_elements (blocks_with_header ++ blocks_body_first) 2.
Proof.
  apply (repeated_elements_grow blocks_with_header blocks_body_first 3 2). lia.
Defined.

(** ** main: which files are written *)

Section batch.
Context `{PyLib} (settings : lang_settings).

Lemma process_after_raise (pdfs : list pdf_file) (st : batch) (e : exn) :
  raised st = Some e → foldl (process_pdf settings) st pdfs = st.
Proof.
  intros He. induction pdfs as [|pdf pdfs IH]; [done|].
  cbn [foldl]. unfold process_pdf at 2. by rewrite He.
Qed.

Lemma process_pdf_written (st : batch) (pdf : pdf_file) :
  raised st = None →
  written (process_pdf settings st pdf)
  = match (extract_outline (pdf_open pdf) settings).2 with
    | Ok (Some result) => <[pdf_stem pdf := result]> (written st)
    | _ => written st
    end.
Proof.
  intros Hst. unfold process_pdf. rewrite Hst.
  by destruct (extract_outline _ _).2 as [[result|]|e].
Qed.

Lemma process_pdf_raised (st : batch) (pdf : pdf_file) :
  raised st = None →
  raised (process_pdf settings st pdf)
  = match (extract_outline (pdf_open pdf) settings).2 with
    | Raise e => Some e
    | Ok _ => None
    end.
Proof.
  intros Hst. unfold process_pdf. rewrite Hst.
  by destruct (extract_outline _ _).2 as [[result|]|e].
Qed.

(** A loop that ends without exception began without one, and no file
    raised. *)
Lemma process_no_raise (pdfs : list pdf_file) (st : batch) :
  raised (foldl (process_pdf settings) st pdfs) = None →
  raised st = None
  ∧ ∀ pdf e, pdf ∈ pdfs → (extract_outline (pdf_open pdf) settings).2 ≠ Raise e.
Proof.
  revert st. induction pdfs as [|pdf pdfs IH]; intros st Hend.
  - split; [done|]. by intros pdf e ?%elem_of_nil.
  - cbn [foldl] in Hend. apply IH in Hend as [Hnext Hrest].
    assert (Hst : raised st = None).
    { destruct (raised st) as [e|] eqn:Hst; [|done].
      unfold process_pdf in Hnext. rewrite Hst in Hnext. congruence. }
    split; [done|].
    intros p e [->|Hp]%elem_of_cons; [|by apply Hrest].
    rewrite process_pdf_raised in Hnext by done.
    intros Hr. by rewrite Hr in Hnext.
Qed.

(** The loop over files none of which raises. *)
Lemma process_all (pdfs : list pdf_file) (st : batch) :
  raised st = None →
  (∀ pdf e, pdf ∈ pdfs → (extract_outline (pdf_open pdf) settings).2 ≠ Raise e) →
  NoDup (map pdf_stem pdfs) →
  raised (foldl (process_pdf settings) st pdfs) = None
  ∧ (∀ pdf, pdf ∈ pdfs →
       written (foldl (process_pdf settings) st pdfs) !! pdf_stem pdf
       = match (extract_outline (pdf_open pdf) settings).2 with
         | Ok (Some result) => Some result
         | _ => written st !! pdf_stem pdf
         end)
  ∧ (∀ stem, stem ∉ map pdf_stem pdfs →
       written (foldl (process_pdf settings) st pdfs) !! stem = written st !! stem).
Proof.
  revert st. induction pdfs as [|pdf pdfs IH]; intros st Hst Hok Hnodup.
  - split; [done|]. split; [by intros pdf ?%elem_of_nil|done].
  - cbn [foldl]. cbn [map] in Hnodup. apply NoDup_cons in Hnodup as [Hfresh Hnodup].
    assert (Hnext : raised (process_pdf settings st pdf) = None).
    { rewrite process_pdf_raised by done.
      destruct (extract_outline _ _).2 as [r|e] eqn:Hr; [done|].
      by destruct (Hok pdf e ltac:(by left)). }
    destruct (IH (process_pdf settings st pdf) Hnext) as (Hraised & Hin & Hout);
      [intros p e Hp; apply Hok; by right|done|].
    split; [done|]. split.
    + intros p [->|Hp]%elem_of_cons.
      * rewrite Hout by done. rewrite process_pdf_written by done.
        destruct (extract_outline _ _).2 as [[result|]|e]; [|done|done].
        apply lookup_insert_eq.
      * rewrite (Hin p Hp).
        destruct (extract_outline (pdf_open p) settings).2 as [[result|]|e];
          [done| |].
        -- rewrite process_pdf_written by done.
           destruct (extract_outline (pdf_open pdf) settings).2 as [[result|]|e];
             [|done|done].
           apply lookup_insert_ne. intros Heq. apply Hfresh. rewrite Heq.
           apply list_elem_of_In, in_map. by apply list_elem_of_In.
        -- rewrite process_pdf_written by done.
           destruct (extract_outline (pdf_open pdf) settings).2 as [[result|]|e'];
             [|done|done].
           apply lookup_insert_ne. intros Heq. apply Hfresh. rewrite Heq.
           apply list_elem_of_In, in_map. by apply list_elem_of_In.
    + intros stem Hstem. cbn [map] in Hstem. apply not_elem_of_cons in Hstem as [Hne Hstem].
      rewrite Hout by done. rewrite process_pdf_written by done.
      destruct (extract_outline _ _).2 as [[result|]|e]; [|done|done].
      by apply lookup_insert_ne.
Qed.

(** The loop up to a file that raises. *)
Lemma process_until_raise (pre post : list pdf_file) (bad : pdf_file) (st : batch)
    (e : exn) :
  raised st = None →
  (∀ pdf e', pdf ∈ pre → (extract_outline (pdf_open pdf) settings).2 ≠ Raise e') →
  (extract_outline (pdf_open bad) settings).2 = Raise e →
  raised (foldl (process_pdf settings) st (pre ++ bad :: post)) = Some e
  ∧ written (foldl (process_pdf settings) st (pre ++ bad :: post))
    = written (foldl (process_pdf settings) st pre)
  ∧ raised (foldl (process_pdf settings) st pre) = None.
Proof.
  revert st. induction pre as [|pdf pre IH]; intros st Hst Hok Hbad.
  - cbn [app foldl].
    assert (Hraise : raised (process_pdf settings st bad) = Some e)
      by (by rewrite process_pdf_raised, Hbad).
    rewrite (process_after_raise post _ e Hraise).
    split; [done|]. split; [|done].
    by rewrite process_pdf_written, Hbad.
  - cbn [app foldl]. apply IH; [|intros p e' Hp; apply Hok; by right|done].
    rewrite process_pdf_raised by done.
    destruct (extract_outline (pdf_open pdf) settings).2 as [r|e'] eqn:Hr; [done|].
    exfalso. apply (Hok pdf e'); [by left|exact Hr].
Qed.

End batch.

Section main_properties.
Context `{PyLib}.

(** What is written and raised does not depend on what was printed. *)
Lemma process_log_irrelevant settings (pdfs : list pdf_file) (st st' : batch) :
  written st = written st' →
  raised st = raised st' →
  written (foldl (process_pdf settings) st pdfs)
  = written (foldl (process_pdf settings) st' pdfs)
  ∧ raised (foldl (process_pdf settings) st pdfs)
    = raised (foldl (process_pdf settings) st' pdfs).
Proof.
  revert st st'. induction pdfs as [|pdf pdfs IH]; intros st st' Hw Hr; [done|].
  cbn [foldl]. apply IH.
  - unfold process_pdf. rewrite <- Hr, Hw.
    destruct (raised st); [done|].
    by destruct (extract_outline _ _).2 as [[result|]|e].
  - unfold process_pdf. rewrite <- Hr.
    destruct (raised st) eqn:Hst; [cbn; congruence|].
    by destruct (extract_outline _ _).2 as [[result|]|e].
Qed.

Lemma process_log_open (settings : lang_settings) (pdfs : list pdf_file) (st : batch) :
  Say MsgAllProcessed ∉ batch_log st →
  Say MsgAllProcessed ∉ batch_log (foldl (process_pdf settings) st pdfs).
Proof.
  revert st. induction pdfs as [|pdf pdfs IH]; intros st Hst; [done|].
  cbn [foldl]. apply IH. unfold process_pdf.
  destruct (raised st); [done|].
  assert (Hlog : Say MsgAllProcessed
                 ∉ batch_log st ++ Say (MsgProcessing (pdf_stem pdf))
                   :: map InDocument (extract_outline (pdf_open pdf) settings).1).
  { intros [?|[?|Hin]%elem_of_cons]%elem_of_app; [done|done|].
    apply list_elem_of_In, in_map_iff in Hin as (ev & ? & _). done. }
  destruct (extract_outline _ _).2 as [[result|]|e]; cbn [batch_log]; [| |done].
  - intros [?|[?|[?|?%elem_of_nil]%elem_of_cons]%elem_of_cons]%elem_of_app; done.
  - intros [?|[?|[?|?%elem_of_nil]%elem_of_cons]%elem_of_cons]%elem_of_app; done.
Qed.

(** [main] with a configured language, by the loop from the empty log. *)
Lemma main_configured (lang_configs : gmap string lang_settings) (lang : string)
    (settings : lang_settings) (pdf_files : list pdf_file) (out : gmap string artifact) :
  lang_configs !! lang = Some settings →
  written (main lang_configs lang pdf_files out)
  = written (foldl (process_pdf settings)
               {| written := out; batch_log := []; raised := None |} pdf_files)
  ∧ raised (main lang_configs lang pdf_files out)
    = raised (foldl (process_pdf settings)
                {| written := out; batch_log := []; raised := None |} pdf_files)
  ∧ (raised (main lang_configs lang pdf_files out) ≠ None →
     Say MsgAllProcessed ∉ batch_log (main lang_configs lang pdf_files out)).
Proof.
  intros Hlang. unfold main. rewrite Hlang.
  rewrite bool_decide_eq_false_2 by (intros ->; by rewrite lookup_empty in Hlang).
  destruct pdf_files as [|pdf0 pdfs] eqn:Hfiles; [done|].
  rewrite <- Hfiles. clear Hfiles.
  destruct (process_log_irrelevant settings pdf_files
              {| written := out;
                 batch_log := [Say (MsgStarting (length pdf_files))];
                 raised := None |}
              {| written := out; batch_log := []; raised := None |})
    as [Hw Hr]; [done..|].
  rewrite <- Hw, <- Hr.
  pose proof (process_log_open settings pdf_files
                {| written := out;
                   batch_log := [Say (MsgStarting (length pdf_files))];
                   raised := None |}) as Hlog.
  destruct (raised (foldl _ _ _)) eqn:Hraised.
  - rewrite Hraised. do 2 (split; [done|]). intros _. apply Hlog.
    intros [?|?%elem_of_nil]%elem_of_cons; done.
  - cbn [written raised]. by do 2 (split; [done|]).
Qed.

(** X22: when the language is not among the configured ones (or nothing
    is configured), [main] opens no document, writes no file and raises
    nothing. *)
Theorem main_unknown_language (lang_configs : gmap string lang_settings)
    (lang : string) (pdf_files : list pdf_file) (out : gmap string artifact) :
  lang_configs !! lang = None →
  written (main lang_configs lang pdf_files out) = out
  ∧ raised (main lang_configs lang pdf_files out) = None
  ∧ ∀ e, InDocument e ∉ batch_log (main lang_configs lang pdf_files out).
Proof.
  intros Hlang. unfold main. rewrite Hlang.
  destruct (bool_decide _); cbn; (do 2 (split; [done|])); intros e.
  - by intros ?%elem_of_nil.
  - intros [?|?%elem_of_nil]%elem_of_cons; done.
Qed.

(** X23: with a configured language and files of distinct names, a run
    of [main] that ends without exception has, for each file, written the
    artifact of [extract_outline] under the file's name, or left that name
    as it was when there is no artifact (the file does not open, or has
    neither outline nor text); all other names are untouched.  A file
    that yields nothing does not stop the files after it. *)
Theorem main_writes_each_artifact (lang_configs : gmap string lang_settings)
    (lang : string) (settings : lang_settings) (pdf_files : list pdf_file)
    (out : gmap string artifact) :
  lang_configs !! lang = Some settings →
  NoDup (map pdf_stem pdf_files) →
  raised (main lang_configs lang pdf_files out) = None →
  (∀ pdf, pdf ∈ pdf_files →
     written (main lang_configs lang pdf_files out) !! pdf_stem pdf
     = match (extract_outline (pdf_open pdf) settings).2 with
       | Ok (Some result) => Some result
       | _ => out !! pdf_stem pdf
       end)
  ∧ (∀ stem, stem ∉ map pdf_stem pdf_files →
       written (main lang_configs lang pdf_files out) !! stem = out !! stem).
Proof.
  intros Hlang Hnodup Hend.
  destruct (main_configured lang_configs lang settings pdf_files out Hlang)
    as (Hw & Hr & _).
  rewrite Hr in Hend. rewrite Hw.
  apply process_no_raise in Hend as [_ Hok].
  by apply (process_all settings pdf_files
              {| written := out; batch_log := []; raised := None |}).
Qed.

(** X24: with a configured language, a document that raises ends the run:
    the exception leaves [main], the files before it are written as if the
    list had ended there, nothing is written for the files behind it, and
    the closing message is not printed. *)
Theorem main_stops_at_exception (lang_configs : gmap string lang_settings)
    (lang : string) (settings : lang_settings) (pre post : list pdf_file)
    (bad : pdf_file) (out : gmap string artifact) (e : exn) :
  lang_configs !! lang = Some settings →
  (∀ pdf e', pdf ∈ pre → (extract_outline (pdf_open pdf) settings).2 ≠ Raise e') →
  (extract_outline (pdf_open bad) settings).2 = Raise e →
  raised (main lang_configs lang (pre ++ bad :: post) out) = Some e
  ∧ written (main lang_configs lang (pre ++ bad :: post) out)
    = written (main lang_configs lang pre out)
  ∧ Say MsgAllProcessed ∉ batch_log (main lang_configs lang (pre ++ bad :: post) out).
Proof.
  intros Hlang Hok Hbad.
  destruct (main_configured lang_configs lang settings (pre ++ bad :: post) out Hlang)
    as (Hw & Hr & Hlog).
  destruct (main_configured lang_configs lang settings pre out Hlang)
    as (Hw' & _ & _).
  destruct (process_until_raise settings pre post bad
              {| written := out; batch_log := []; raised := None |} e)
    as (Hraised & Hwritten & _); [done..|].
  rewrite Hr, Hraised in *. rewrite Hw, Hw', Hwritten.
  split; [done|]. split; [done|]. by apply Hlog.
Qed.

End main_properties.

Lemma main_unknown_language_witness :
  written (main (H:=example_lib) english_only "zh" [pdf_deep] ∅) = ∅.
Proof.
  apply (main_unknown_language (H:=example_lib) english_only "zh" [pdf_deep] ∅).
  reflexivity.
Defined.

Lemma main_writes_each_artifact_witness :
  written (main (H:=example_lib) english_only "en" [pdf_broken; pdf_deep] ∅)
    !! pdf_stem pdf_deep
  = Some deep_toc_artifact
  ∧ written (main (H:=example_lib) english_only "en" [pdf_broken; pdf_deep] ∅)
      !! pdf_stem pdf_broken
    = None.
Proof.
  pose proof (main_writes_each_artifact (H:=example_lib) english_only "en"
                no_numbering [pdf_broken; pdf_deep] ∅
                ltac:(reflexivity)
                ltac:(vm_compute; repeat constructor;
                      rewrite ?elem_of_cons, ?elem_of_nil;
                      intros Hin; repeat destruct Hin as [Hin|Hin];
                      discriminate || done)
                ltac:(by vm_compute)) as [Hin _].
  split.
  - apply (Hin pdf_deep). right. left.
  - apply (Hin pdf_broken). left.
Defined.

Lemma main_stops_at_exception_witness :
  raised (main (H:=example_lib) english_only "en"
            ([pdf_broken] ++ pdf_zero_width :: [pdf_deep]) ∅)
  = Some ZeroDivisionError
  ∧ written (main (H:=example_lib) english_only "en"
               ([pdf_broken] ++ pdf_zero_width :: [pdf_deep]) ∅)
    = written (main (H:=example_lib) english_only "en" [pdf_broken] ∅).
Proof.
  destruct (main_stops_at_exception (H:=example_lib) english_only "en" no_numbering
              [pdf_broken] [pdf_deep] pdf_zero_width ∅ ZeroDivisionError)
    as (Hraised & Hwritten & _).
  - reflexivity.
  - intros pdf e Hin. apply list_elem_of_singleton in Hin as ->.
    vm_compute. discriminate.
  - vm_compute. reflexivity.
  - split; [exact Hraised|exact Hwritten].
Defined.

Section title_normalized.
Context `{PyLib}.

(** X25: a title that [detect_title] returns is normalized: normalizing
    it again changes nothing, and no alphanumeric character of it repeats
    the character before it. *)
Theorem detect_title_normalized (doc : document) (blocks : list block) (ttl : str) :
  detect_title doc blocks = Ok ttl →
  normalize_text ttl = ttl
  ∧ ∀ i c, ttl !! i = Some c → ttl !! S i = Some c → isalnum c = false.
Proof.
  rewrite detect_title_outcome. intros Httl.
  assert (Hnorm : ttl = [] ∨ ∃ s, ttl = normalize_text s).
  { destruct (head (pages doc)) as [p0|]; [|injection Httl as <-; by left].
    destruct (_ && _); [done|]. injection Httl as <-.
    destruct (map _ _) as [|c cs]; [by left|right; eauto]. }
  assert (Hclean : no_repeat ttl = true).
  { destruct Hnorm as [->|[s ->]]; [done|apply normalize_text_no_repeat]. }
  split; [|by apply no_repeat_lookup].
  destruct ttl as [|c t]; [done|]. cbn [no_repeat] in Hclean.
  by rewrite normalize_text_cons, normalize_from_fixed.
Qed.

End title_normalized.

Lemma detect_title_normalized_witness :
  normalize_text (H:=example_lib) (PyStr.lit "A plain first line")
  = PyStr.lit "A plain first line".
Proof.
  apply (proj1 (detect_title_normalized (H:=example_lib) doc_uniform
                  (extract_text_blocks doc_uniform) (PyStr.lit "A plain first line")
                  ltac:(vm_compute; reflexivity))).
Defined.
